(** * V2X vehicle state engine: kinematics, decision chain, codec and
      replication store of [v2x_drowziness_2.py]

    Shallow embedding of the methods of [Vehicle] and [V2XApp] that make
    up the state engine: [Vehicle.__init__], [update_physics], [to_json],
    [from_json], and [V2XApp.spawn_ambulance_click], [on_message],
    [cleanup_ghosts].  Rendering, input handling and the camera thread
    are not part of it.

    Numbers.  Python floats and ints that hold positions, speeds and
    clock readings are embedded as exact rationals [Q]; lane indices and
    colour components are integers [Z].  Rounding of IEEE arithmetic is
    therefore outside this model.

    Objects.  A [Vehicle] object is a record; an attribute assignment
    [self.f = e] is the setter [set_f e self].  The dictionary
    [V2XApp.vehicles] is a finite map from ids to entries. *)

From Stdlib Require Import QArith Qround Qabs Lqa ZArith Lia Bool.
From stdpp Require Import gmap strings list fin_maps option.

Open Scope Q_scope.

(** ** Configuration (class [Config]) *)

Module Config.
Definition LANE_COUNT : Z := 4.
Definition SERVICE_LANE_INDEX : Z := 3.
Definition TOTAL_LENGTH : Q := 2000.
Definition MAX_SPEED_KMH : Q := 250.
Definition MAX_SPEED_MS : Q := MAX_SPEED_KMH / 3.6.
Definition ACCEL : Q := 10.
Definition BRAKE : Q := 25.
Definition LANE_CHANGE_SPEED : Q := 2.0.
Definition SAFE_DIST : Q := 200.
Definition CRITICAL_DIST : Q := 80.
Definition AMBULANCE_DIST : Q := 400.
Definition GHOST_TIMEOUT : Q := 3.0.
Definition DROWSY_TIME_THRESHOLD : Q := 2.0.
End Config.

(** ** Python comparison and builtins on numbers *)

(** [a < b] as a boolean test. *)
Definition Qltb (a b : Q) : bool := negb (Qle_bool b a).

(** [max(a, b)]: the first argument unless the second is greater. *)
Definition py_max (a b : Q) : Q := if Qltb a b then b else a.

(** [min(a, b)]: the first argument unless the second is smaller. *)
Definition py_min (a b : Q) : Q := if Qltb b a then b else a.

(** [o or d] for an optional number: [None] and [0] are falsy. *)
Definition py_or (o : option Q) (d : Q) : Q :=
  match o with
  | Some q => if Qeq_bool q 0 then d else q
  | None => d
  end.

(** [float('inf')] or a finite number. *)
Inductive Dist : Type :=
  | Inf
  | Fin (d : Q).

(** [q < dist] where [dist] may be infinite. *)
Definition lt_dist (q : Q) (dist : Dist) : bool :=
  match dist with
  | Inf => true
  | Fin d => Qltb q d
  end.

(** [dist < q] where [dist] may be infinite. *)
Definition dist_lt (dist : Dist) (q : Q) : bool :=
  match dist with
  | Inf => false
  | Fin d => Qltb d q
  end.

(** ** Vehicle objects (class [Vehicle]) *)

Record Vehicle : Type := mkVehicle {
  id : string;
  is_emergency : bool;
  lane : Z;
  visual_lane : Q;
  x : Q;
  speed : Q;
  user_target_speed : Q;
  target_speed : Q;
  color : list Z;            (* a tuple of colour components *)
  warning_vehicle_ahead : bool;
  braking : bool;
  drowsy_alert : bool;
  last_update : Q;
  lane_change_cooldown : Q
}.

Definition set_is_emergency (b : bool) (v : Vehicle) : Vehicle :=
  mkVehicle (id v) b (lane v) (visual_lane v) (x v) (speed v)
    (user_target_speed v) (target_speed v) (color v)
    (warning_vehicle_ahead v) (braking v) (drowsy_alert v)
    (last_update v) (lane_change_cooldown v).

Definition set_lane (l : Z) (v : Vehicle) : Vehicle :=
  mkVehicle (id v) (is_emergency v) l (visual_lane v) (x v) (speed v)
    (user_target_speed v) (target_speed v) (color v)
    (warning_vehicle_ahead v) (braking v) (drowsy_alert v)
    (last_update v) (lane_change_cooldown v).

Definition set_visual_lane (q : Q) (v : Vehicle) : Vehicle :=
  mkVehicle (id v) (is_emergency v) (lane v) q (x v) (speed v)
    (user_target_speed v) (target_speed v) (color v)
    (warning_vehicle_ahead v) (braking v) (drowsy_alert v)
    (last_update v) (lane_change_cooldown v).

Definition set_x (q : Q) (v : Vehicle) : Vehicle :=
  mkVehicle (id v) (is_emergency v) (lane v) (visual_lane v) q (speed v)
    (user_target_speed v) (target_speed v) (color v)
    (warning_vehicle_ahead v) (braking v) (drowsy_alert v)
    (last_update v) (lane_change_cooldown v).

Definition set_speed (q : Q) (v : Vehicle) : Vehicle :=
  mkVehicle (id v) (is_emergency v) (lane v) (visual_lane v) (x v) q
    (user_target_speed v) (target_speed v) (color v)
    (warning_vehicle_ahead v) (braking v) (drowsy_alert v)
    (last_update v) (lane_change_cooldown v).

Definition set_user_target_speed (q : Q) (v : Vehicle) : Vehicle :=
  mkVehicle (id v) (is_emergency v) (lane v) (visual_lane v) (x v) (speed v)
    q (target_speed v) (color v)
    (warning_vehicle_ahead v) (braking v) (drowsy_alert v)
    (last_update v) (lane_change_cooldown v).

Definition set_target_speed (q : Q) (v : Vehicle) : Vehicle :=
  mkVehicle (id v) (is_emergency v) (lane v) (visual_lane v) (x v) (speed v)
    (user_target_speed v) q (color v)
    (warning_vehicle_ahead v) (braking v) (drowsy_alert v)
    (last_update v) (lane_change_cooldown v).

Definition set_color (c : list Z) (v : Vehicle) : Vehicle :=
  mkVehicle (id v) (is_emergency v) (lane v) (visual_lane v) (x v) (speed v)
    (user_target_speed v) (target_speed v) c
    (warning_vehicle_ahead v) (braking v) (drowsy_alert v)
    (last_update v) (lane_change_cooldown v).

Definition set_warning_vehicle_ahead (b : bool) (v : Vehicle) : Vehicle :=
  mkVehicle (id v) (is_emergency v) (lane v) (visual_lane v) (x v) (speed v)
    (user_target_speed v) (target_speed v) (color v)
    b (braking v) (drowsy_alert v)
    (last_update v) (lane_change_cooldown v).

Definition set_braking (b : bool) (v : Vehicle) : Vehicle :=
  mkVehicle (id v) (is_emergency v) (lane v) (visual_lane v) (x v) (speed v)
    (user_target_speed v) (target_speed v) (color v)
    (warning_vehicle_ahead v) b (drowsy_alert v)
    (last_update v) (lane_change_cooldown v).

Definition set_drowsy_alert (b : bool) (v : Vehicle) : Vehicle :=
  mkVehicle (id v) (is_emergency v) (lane v) (visual_lane v) (x v) (speed v)
    (user_target_speed v) (target_speed v) (color v)
    (warning_vehicle_ahead v) (braking v) b
    (last_update v) (lane_change_cooldown v).

Definition set_last_update (q : Q) (v : Vehicle) : Vehicle :=
  mkVehicle (id v) (is_emergency v) (lane v) (visual_lane v) (x v) (speed v)
    (user_target_speed v) (target_speed v) (color v)
    (warning_vehicle_ahead v) (braking v) (drowsy_alert v)
    q (lane_change_cooldown v).

Definition set_lane_change_cooldown (q : Q) (v : Vehicle) : Vehicle :=
  mkVehicle (id v) (is_emergency v) (lane v) (visual_lane v) (x v) (speed v)
    (user_target_speed v) (target_speed v) (color v)
    (warning_vehicle_ahead v) (braking v) (drowsy_alert v)
    (last_update v) q.

(** What the outside world supplies to one call: the reading of
    [time.time()] and the integers drawn by [random.randint]. *)
Record Env : Type := mkEnv {
  time_time : Q;
  rand_x : Z;        (* randint(0, 1500) *)
  rand_speed : Z;    (* randint(20, 30) *)
  rand_red : Z;      (* randint(50, 200) *)
  rand_green : Z     (* randint(50, 200) *)
}.

(** [Vehicle.__init__(uid, is_emergency)]. *)
Definition Vehicle_init (env : Env) (uid : string) (emb : bool) : Vehicle :=
  let l : Z := if negb emb then 1%Z else 0%Z in
  let sp : Q := if emb then Config.MAX_SPEED_MS else inject_Z (rand_speed env) in
  {| id := uid;
     is_emergency := emb;
     lane := l;
     visual_lane := inject_Z l;
     x := if emb then 0 else inject_Z (rand_x env);
     speed := sp;
     user_target_speed := 25;
     target_speed := sp;
     color := if emb then [255; 215; 0]%Z
              else [rand_red env; rand_green env; 255]%Z;
     warning_vehicle_ahead := false;
     braking := false;
     drowsy_alert := false;
     last_update := time_time env;
     lane_change_cooldown := 0 |}.

(** ** [Vehicle.update_physics] *)

(** The three locals of the scan loop. *)
Record Scan : Type := mkScan {
  dist_to_ahead : Dist;
  speed_of_car_ahead : option Q;
  ambulance_behind : bool
}.

Definition scan_init : Scan :=
  {| dist_to_ahead := Inf; speed_of_car_ahead := None; ambulance_behind := false |}.

(** [d_ahead] of the loop body: the difference, lifted once by the track
    length when negative. *)
Definition d_ahead (self other : Vehicle) : Q :=
  let d := x other - x self in
  if Qltb d 0 then d + Config.TOTAL_LENGTH else d.

(** [d_behind] of the loop body. *)
Definition d_behind (self other : Vehicle) : Q :=
  let d := x self - x other in
  if Qltb d 0 then d + Config.TOTAL_LENGTH else d.

(** One iteration of [for other in all_vehicles.values()]. *)
Definition scan_step (self : Vehicle) (s : Scan) (other : Vehicle) : Scan :=
  if String.eqb (id other) (id self) then s
  else if (lane other =? lane self)%Z then
    let s1 :=
      if lt_dist (d_ahead self other) (dist_to_ahead s)
      then {| dist_to_ahead := Fin (d_ahead self other);
              speed_of_car_ahead := Some (speed other);
              ambulance_behind := ambulance_behind s |}
      else s in
    if is_emergency other && Qltb (d_behind self other) Config.AMBULANCE_DIST
    then {| dist_to_ahead := dist_to_ahead s1;
            speed_of_car_ahead := speed_of_car_ahead s1;
            ambulance_behind := true |}
    else s1
  else s.

(** The whole loop; [all_vehicles] is [all_vehicles.values()] in the
    dictionary's iteration order. *)
Definition scan (self : Vehicle) (all_vehicles : list Vehicle) : Scan :=
  fold_left (scan_step self) all_vehicles scan_init.

(** Lines 176-178: both flags are cleared and the cooldown is decremented
    before the rule chain. *)
Definition reset_flags (dt : Q) (self : Vehicle) : Vehicle :=
  let self := set_warning_vehicle_ahead false self in
  let self := set_braking false self in
  set_lane_change_cooldown (lane_change_cooldown self - dt) self.

(** The guard of the second rule (line 191). *)
Definition yield_rule_fires (s : Scan) (self : Vehicle) : bool :=
  ambulance_behind s && negb (is_emergency self)
    && Qle_bool (lane_change_cooldown self) 0.

(** The [if]/[elif] chain of lines 181-209. *)
Definition rule_chain (is_me_drowsy : bool) (s : Scan) (self : Vehicle) : Vehicle :=
  if is_me_drowsy then
    let self := set_drowsy_alert true self in
    if negb (lane self =? Config.SERVICE_LANE_INDEX)%Z then
      if Qle_bool (lane_change_cooldown self) 0 then
        let self := set_lane (lane self + 1)%Z self in
        set_lane_change_cooldown 1.0 self
      else self
    else
      let self := set_target_speed 0 self in
      set_braking true self
  else if yield_rule_fires s self then
    if (lane self <? Config.LANE_COUNT - 1)%Z then
      let self := set_lane (lane self + 1)%Z self in
      set_lane_change_cooldown 2.0 self
    else if (0 <? lane self)%Z then
      let self := set_lane (lane self - 1)%Z self in
      set_lane_change_cooldown 2.0 self
    else self
  else if is_emergency self then
    set_target_speed (Config.MAX_SPEED_MS * 1.2) self
  else if dist_lt (dist_to_ahead s) Config.CRITICAL_DIST then
    let self := set_target_speed 0 self in
    let self := set_warning_vehicle_ahead true self in
    set_braking true self
  else if dist_lt (dist_to_ahead s) Config.SAFE_DIST then
    let self :=
      match speed_of_car_ahead s with
      | Some sp => set_target_speed (sp * 0.8) self
      | None => set_target_speed 10 self
      end in
    let self := set_braking true self in
    if Qltb (py_or (speed_of_car_ahead s) 0) (speed self)
    then set_warning_vehicle_ahead true self
    else self
  else
    set_target_speed (user_target_speed self) self.

(** Lines 212-217: ramp the speed, clamp it, advance and reset the
    position. *)
Definition advance (dt : Q) (self : Vehicle) : Vehicle :=
  let self :=
    if Qltb (speed self) (target_speed self)
    then set_speed (speed self + Config.ACCEL * dt) self
    else if Qltb (target_speed self) (speed self)
    then set_speed (speed self - Config.BRAKE * dt) self
    else self in
  let self := set_speed (py_max 0 (py_min (speed self) (Config.MAX_SPEED_MS * 1.5))) self in
  let self := set_x (x self + speed self * dt) self in
  if Qltb Config.TOTAL_LENGTH (x self) then set_x 0 self else self.

Definition update_physics (dt : Q) (all_vehicles : list Vehicle)
    (is_me_drowsy : bool) (self : Vehicle) : Vehicle :=
  let s := scan self all_vehicles in
  let self := reset_flags dt self in
  let self := rule_chain is_me_drowsy s self in
  advance dt self.

(** ** The wire format ([json.dumps] / [json.loads])

    The [json] module is a library; it is embedded at the level of the
    documents it reads and writes.  A payload is either text that
    [json.loads] rejects, or text that denotes a JSON value.  A JSON
    object is described by the eight keys the program ever reads, each
    absent or present with a value of the type the wire schema gives that
    key (numbers for ["x"] and ["spd"], an integer for ["lane"], an array
    of integers for ["col"], ...).  Objects whose values have other JSON
    types are not represented. *)

Record Doc : Type := mkDoc {
  key_id : option string;
  key_lane : option Z;
  key_x : option Q;
  key_spd : option Q;
  key_emb : option bool;
  key_col : option (list Z);
  key_drw : option bool;
  key_brk : option bool
}.

(** The value returned by [json.loads]: an object, or any other JSON value
    (array, string, number, [true], [false], [null]). *)
Inductive Json : Type :=
  | JObject (d : Doc)
  | JOther.

Inductive Payload : Type :=
  | NotJson
  | Text (j : Json).

(** [json.loads(payload)]; [None] stands for the raised exception. *)
Definition json_loads (p : Payload) : option Json :=
  match p with
  | NotJson => None
  | Text j => Some j
  end.

(** [json.dumps(d)] of a dictionary; a tuple value is written as an
    array, which is the same sequence of elements. *)
Definition json_dumps (d : Doc) : Payload := Text (JObject d).

(** [d[key]]: raises ([None]) when [d] is not an object or lacks the key. *)
Definition getitem {A : Type} (d : Json) (key : Doc -> option A) : option A :=
  match d with
  | JObject o => key o
  | JOther => None
  end.

(** [d.get(key, default)] on an object. *)
Definition get {A : Type} (d : Json) (key : Doc -> option A) (default : A) : A :=
  match getitem d key with
  | Some a => a
  | None => default
  end.

(** [Vehicle.to_json]. *)
Definition to_json (self : Vehicle) : Payload :=
  json_dumps
    {| key_id := Some (id self);
       key_lane := Some (lane self);
       key_x := Some (x self);
       key_spd := Some (speed self);
       key_emb := Some (is_emergency self);
       key_col := Some (color self);
       key_drw := Some (drowsy_alert self);
       key_brk := Some (braking self) |}.

(** [Vehicle.from_json]: the whole body sits in [try: ... except: return
    None], so the result is Python's [None] as soon as one step raises.
    [tuple(d['col'])] turns the array back into a tuple of the same
    elements. *)
Definition from_json (env : Env) (payload : Payload) : option Vehicle :=
  d ← json_loads payload;
  uid ← getitem d key_id;
  emb ← getitem d key_emb;
  let v := Vehicle_init env uid emb in
  l ← getitem d key_lane;
  let v := set_lane l v in
  px ← getitem d key_x;
  let v := set_x px v in
  sp ← getitem d key_spd;
  let v := set_speed sp v in
  c ← getitem d key_col;
  let v := set_color c v in
  let v := set_drowsy_alert (get d key_drw false) v in
  let v := set_braking (get d key_brk false) v in
  let v := set_visual_lane (inject_Z (lane v)) v in
  let v := set_last_update (time_time env) v in
  Some v.

(** ** The application state (class [V2XApp])

    [vehicles] maps an id to the object stored under it; the stored value
    is [None] when the dictionary holds Python's [None] there.
    [self.my_vehicle] is created in [__init__] as the object stored under
    its own id, and no method rebinds or deletes that key, so the local
    vehicle is the entry of [vehicles] at [my_vehicle_id]. *)

Record V2XApp : Type := mkApp {
  my_vehicle_id : string;
  vehicles : gmap string (option Vehicle);
  i_own_ambulance : bool
}.

Definition set_vehicles (m : gmap string (option Vehicle)) (app : V2XApp) : V2XApp :=
  {| my_vehicle_id := my_vehicle_id app;
     vehicles := m;
     i_own_ambulance := i_own_ambulance app |}.

(** The part of [V2XApp.__init__] that builds the store. *)
Definition V2XApp_init (env : Env) (uid : string) : V2XApp :=
  let my_vehicle := set_color [0; 200; 255]%Z (Vehicle_init env uid false) in
  {| my_vehicle_id := uid;
     vehicles := {[ uid := Some my_vehicle ]};
     i_own_ambulance := false |}.

(** [V2XApp.spawn_ambulance_click]. *)
Definition spawn_ambulance_click (env : Env) (app : V2XApp) : V2XApp :=
  match vehicles app !! "AMB-1" with
  | None =>
      {| my_vehicle_id := my_vehicle_id app;
         vehicles := <["AMB-1" := Some (Vehicle_init env "AMB-1" true)]> (vehicles app);
         i_own_ambulance := true |}
  | Some _ => app
  end.

(** The [else] branch of [on_message] (lines 332-336): the attributes are
    assigned one after the other, so a missing key stops the sequence
    after the assignments already made. *)
Definition overwrite_fields (env : Env) (d : Json) (v : Vehicle) : Vehicle :=
  match getitem d key_x with
  | None => v
  | Some px =>
    let v := set_x px v in
    match getitem d key_lane with
    | None => v
    | Some l =>
      let v := set_lane l v in
      match getitem d key_spd with
      | None => v
      | Some sp =>
        let v := set_speed sp v in
        match getitem d key_emb with
        | None => v
        | Some e =>
          let v := set_is_emergency e v in
          let v := set_drowsy_alert (get d key_drw false) v in
          let v := set_braking (get d key_brk false) v in
          set_last_update (time_time env) v
        end
      end
    end
  end.

(** [V2XApp.on_message]: every exception is swallowed by [except: pass];
    what was written before it stays written. *)
Definition on_message (env : Env) (payload : Payload) (app : V2XApp) : V2XApp :=
  match json_loads payload with
  | None => app
  | Some d =>
    match getitem d key_id with
    | None => app
    | Some uid =>
      if negb (String.eqb uid (my_vehicle_id app)) then
        if String.eqb uid "AMB-1" && i_own_ambulance app then app
        else
          match vehicles app !! uid with
          | None =>
              set_vehicles (<[uid := from_json env payload]> (vehicles app)) app
          | Some None => app
          | Some (Some v) =>
              set_vehicles (<[uid := Some (overwrite_fields env d v)]> (vehicles app)) app
          end
      else app
    end
  end.

(** [V2XApp.cleanup_ghosts] *)

(** The list comprehension of lines 341-343 over [self.vehicles.items()];
    reading [last_update] of a [None] entry raises. *)
Fixpoint ghost_ids (my_id : string) (now : Q)
    (items : list (string * option Vehicle)) : option (list string) :=
  match items with
  | [] => Some []
  | (vid, e) :: rest =>
      if negb (String.eqb vid my_id) then
        match e with
        | None => None
        | Some v =>
            ghosts ← ghost_ids my_id now rest;
            Some (if Qltb Config.GHOST_TIMEOUT (now - last_update v)
                  then vid :: ghosts else ghosts)
        end
      else ghost_ids my_id now rest
  end.

(** [ghosts.remove(s)] for an element known to be in the list: the first
    occurrence goes. *)
Fixpoint list_remove_first (s : string) (l : list string) : list string :=
  match l with
  | [] => []
  | a :: rest => if String.eqb a s then rest else a :: list_remove_first s rest
  end.

(** [for vid in ghosts: del self.vehicles[vid]]. *)
Definition delete_all (ghosts : list string)
    (m : gmap string (option Vehicle)) : gmap string (option Vehicle) :=
  fold_left (fun acc vid => delete vid acc) ghosts m.

(** [None] stands for the exception escaping the method, which happens
    before anything is deleted. *)
Definition cleanup_ghosts (env : Env) (app : V2XApp) : option V2XApp :=
  let now := time_time env in
  ghosts ← ghost_ids (my_vehicle_id app) now (map_to_list (vehicles app));
  let ghosts :=
    if i_own_ambulance app && bool_decide ("AMB-1" ∈ ghosts)
    then list_remove_first "AMB-1" ghosts else ghosts in
  Some (set_vehicles (delete_all ghosts (vehicles app)) app).

(** ** [Vehicle.update_visuals] *)

Definition update_visuals (dt : Q) (self : Vehicle) : Vehicle :=
  let diff := inject_Z (lane self) - visual_lane self in
  if Qltb 0.01 (Qabs diff) then
    let direction : Q := if Qltb 0 diff then 1 else -1 in
    let self :=
      set_visual_lane
        (visual_lane self + direction * Config.LANE_CHANGE_SPEED * dt) self in
    if Qltb (Qabs (inject_Z (lane self) - visual_lane self)) 0.05
    then set_visual_lane (inject_Z (lane self)) self
    else self
  else set_visual_lane (inject_Z (lane self)) self.

(** ** User commands ([V2XApp.change_lane], [V2XApp.chg_speed])

    Both methods read and write [self.my_vehicle] and nothing else; they
    are given as functions on that vehicle. *)

Definition change_lane (d : Z) (my_vehicle : Vehicle) : Vehicle :=
  let new_lane := (lane my_vehicle + d)%Z in
  if (0 <=? new_lane)%Z && (new_lane <? Config.LANE_COUNT)%Z
  then set_lane new_lane my_vehicle
  else my_vehicle.

Definition chg_speed (d : Q) (my_vehicle : Vehicle) : Vehicle :=
  let my_vehicle :=
    set_user_target_speed (user_target_speed my_vehicle + d) my_vehicle in
  set_user_target_speed
    (py_max 0 (py_min (user_target_speed my_vehicle) Config.MAX_SPEED_MS))
    my_vehicle.

(** ** The attention signal (class [UniversalDetector])

    The two attributes the detection logic of [loop] (lines 84-91) reads
    and writes, and one pass through the loop body.  What the camera
    delivers is an input: the read failed, or the classifier found so
    many faces.  [time.time()] is read at most once per pass. *)

Module UniversalDetector.

Record t : Type := mk {
  drowsy : bool;
  no_face_start_time : option Q
}.

(** The attributes as [__init__] sets them. *)
Definition init : t := {| drowsy := false; no_face_start_time := None |}.

Inductive Frame : Type :=
  | ReadFailed                (* [success] is false: [continue] *)
  | Faces (n : nat).          (* [len(faces)] *)

Definition loop_body (now : Q) (frame : Frame) (self : t) : t :=
  match frame with
  | ReadFailed => self
  | Faces O =>
      match no_face_start_time self with
      | None => {| drowsy := drowsy self; no_face_start_time := Some now |}
      | Some start =>
          if Qltb Config.DROWSY_TIME_THRESHOLD (now - start)
          then {| drowsy := true; no_face_start_time := Some start |}
          else self
      end
  | Faces (S _) => {| drowsy := false; no_face_start_time := None |}
  end.

(** Successive passes, each with its clock reading and its frame. *)
Definition loop (frames : list (Q * Frame)) (self : t) : t :=
  fold_left (fun st f => loop_body (fst f) (snd f) st) frames self.

(** A pass that saw no face. *)
Definition faceless (f : Q * Frame) : bool :=
  match snd f with
  | Faces O => true
  | _ => false
  end.

(** A pass that did not see a face (none found, or nothing read). *)
Definition no_face_seen (f : Q * Frame) : bool :=
  match snd f with
  | Faces (S _) => false
  | _ => true
  end.

End UniversalDetector.

(** ** Helpers for statements about several calls *)

(** The other vehicles the scan loop looks at: those of another id in
    the same lane. *)
Definition shares_lane (self other : Vehicle) : bool :=
  negb (String.eqb (id other) (id self)) && (lane other =? lane self)%Z.

(** Successive calls of [update_physics] on the same vehicle, each with
    its own time step and its own view of the other vehicles, the
    attention signal being constant. *)
Fixpoint drive (ticks : list (Q * list Vehicle)) (is_me_drowsy : bool)
    (self : Vehicle) : Vehicle :=
  match ticks with
  | [] => self
  | (dt, all_vehicles) :: rest =>
      drive rest is_me_drowsy (update_physics dt all_vehicles is_me_drowsy self)
  end.

(** Total time of a list of ticks. *)
Definition elapsed (ticks : list (Q * list Vehicle)) : Q :=
  fold_right (fun tick acc => fst tick + acc) 0 ticks.

(** The bounds the data model puts on a vehicle's own state. *)
Definition lane_valid (v : Vehicle) : Prop :=
  (0 <= lane v < Config.LANE_COUNT)%Z.

Definition speed_valid (v : Vehicle) : Prop :=
  0 <= speed v /\ speed v <= Config.MAX_SPEED_MS * 1.5.

(** The draws are within the ranges [random.randint] is called with. *)
Definition draws_in_range (env : Env) : Prop :=
  (0 <= rand_x env <= 1500)%Z /\ (20 <= rand_speed env <= 30)%Z /\
  (50 <= rand_red env <= 200)%Z /\ (50 <= rand_green env <= 200)%Z.

(** The local vehicle is in the store. *)
Definition local_vehicle_present (app : V2XApp) : Prop :=
  exists v, vehicles app !! my_vehicle_id app = Some (Some v).

(** An agent that owns the ambulance has it in its store. *)
Definition owned_ambulance_present (app : V2XApp) : Prop :=
  i_own_ambulance app = true ->
  exists v, vehicles app !! "AMB-1" = Some (Some v).

(** ** Notions of the specification

    The specification speaks of positions and distances taken modulo the
    track length.  The program never computes a remainder; the
    definitions below follow the specification's words and are compared
    with the program's in the theorems. *)

(** [a mod m] on rationals, with the sign of [m] (the floored remainder). *)
Definition Qmodulo (a m : Q) : Q := a - m * inject_Z (Qfloor (a / m)).

(** Forward circular distance, [(other.position - self.position) mod
    TRACK_LENGTH]. *)
Definition forward_distance (self other : Vehicle) : Q :=
  Qmodulo (x other - x self) Config.TOTAL_LENGTH.

(** Backward circular distance, [(self.position - other.position) mod
    TRACK_LENGTH]. *)
Definition backward_distance (self other : Vehicle) : Q :=
  Qmodulo (x self - x other) Config.TOTAL_LENGTH.

(** A position of the data model: in [[0, TRACK_LENGTH)]. *)
Definition on_track (v : Vehicle) : Prop :=
  0 <= x v /\ x v < Config.TOTAL_LENGTH.

(** The inbound messages of a run, each with the clock reading and the
    random draws of the moment it is handled, applied in order. *)
Definition deliver (msgs : list (Env * Payload)) (app : V2XApp) : V2XApp :=
  fold_left (fun a m => on_message (fst m) (snd m) a) msgs app.

(** A store against which the sweep runs to completion: no key other
    than the local one holds Python's [None]. *)
Definition sweepable (app : V2XApp) : Prop :=
  forall vid, vid <> my_vehicle_id app -> vehicles app !! vid <> Some None.

(** The same, as a check that runs on a concrete store. *)
Definition sweepableb (app : V2XApp) : bool :=
  forallb (fun item : string * option Vehicle =>
             String.eqb (fst item) (my_vehicle_id app)
             || match snd item with Some _ => true | None => false end)
          (map_to_list (vehicles app)).

(** ** Concrete vehicles used in examples *)

(** A freshly created car with chosen id, lane, position, speed and kind;
    the target speed starts at the speed, as in the constructor. *)
Definition car (uid : string) (l : Z) (px sp : Q) (emb : bool) : Vehicle :=
  {| id := uid; is_emergency := emb; lane := l; visual_lane := inject_Z l;
     x := px; speed := sp; user_target_speed := 25; target_speed := sp;
     color := [0; 200; 255]%Z; warning_vehicle_ahead := false;
     braking := false; drowsy_alert := false; last_update := 0;
     lane_change_cooldown := 0 |}.

(** A clock reading and some draws within their ranges. *)
Definition env_at (now : Q) : Env :=
  {| time_time := now; rand_x := 700; rand_speed := 25;
     rand_red := 60; rand_green := 70 |}.

(** A JSON object with the key ["id"] and nothing else. *)
Definition only_id (uid : string) : Payload :=
  Text (JObject {| key_id := Some uid; key_lane := None; key_x := None;
                   key_spd := None; key_emb := None; key_col := None;
                   key_drw := None; key_brk := None |}).

(** A JSON object with the keys ["id"] and ["x"] and nothing else. *)
Definition only_id_x (uid : string) (px : Q) : Payload :=
  Text (JObject {| key_id := Some uid; key_lane := None; key_x := Some px;
                   key_spd := None; key_emb := None; key_col := None;
                   key_drw := None; key_brk := None |}).

(** * Properties *)

(** ** Comparison lemmas *)

Lemma Qltb_lt (a b : Q) : Qltb a b = true <-> a < b.
Proof.
  unfold Qltb. rewrite negb_true_iff.
  split; intros H.
  - apply Qnot_le_lt. intros Hle. apply Qle_bool_iff in Hle. congruence.
  - apply not_true_is_false. intros Hle. apply Qle_bool_iff in Hle. lra.
Qed.

Lemma Qltb_ge (a b : Q) : Qltb a b = false <-> b <= a.
Proof.
  unfold Qltb. rewrite negb_false_iff. apply Qle_bool_iff.
Qed.

Lemma py_max_lower (a b : Q) : a <= py_max a b.
Proof.
  unfold py_max. destruct (Qltb a b) eqn:E.
  - apply Qltb_lt in E. lra.
  - lra.
Qed.

Lemma py_max_upper (a b c : Q) : a <= c -> b <= c -> py_max a b <= c.
Proof. unfold py_max. destruct (Qltb a b); auto. Qed.

Lemma py_min_upper (a b : Q) : py_min a b <= b.
Proof.
  unfold py_min. destruct (Qltb b a) eqn:E.
  - lra.
  - apply Qltb_ge in E. exact E.
Qed.

Lemma top_speed_nonneg : 0 <= Config.MAX_SPEED_MS * 1.5.
Proof. vm_compute. discriminate. Qed.

(** ** Frame lemmas for [advance] *)

(** The kinematics part writes [speed] and [x] only. *)
Lemma advance_speed (dt : Q) (v : Vehicle) :
  exists s, speed (advance dt v) = py_max 0 (py_min s (Config.MAX_SPEED_MS * 1.5)).
Proof.
  unfold advance.
  set (v1 := if Qltb (speed v) (target_speed v) then _ else _).
  exists (speed v1).
  match goal with |- context [if ?c then _ else _] => destruct c end; reflexivity.
Qed.

Lemma advance_frame (dt : Q) (v : Vehicle) :
  let v' := advance dt v in
  id v' = id v /\ is_emergency v' = is_emergency v /\ lane v' = lane v /\
  target_speed v' = target_speed v /\
  warning_vehicle_ahead v' = warning_vehicle_ahead v /\
  braking v' = braking v /\ drowsy_alert v' = drowsy_alert v /\
  lane_change_cooldown v' = lane_change_cooldown v.
Proof.
  unfold advance.
  repeat match goal with |- context [if ?c then _ else _] => destruct c end;
    simpl; repeat split; reflexivity.
Qed.

(** The clamp of line 215 decides the speed, whatever came before. *)
Lemma update_physics_speed_range (dt : Q) (all_vehicles : list Vehicle)
    (is_me_drowsy : bool) (self : Vehicle) :
  0 <= speed (update_physics dt all_vehicles is_me_drowsy self) /\
  speed (update_physics dt all_vehicles is_me_drowsy self) <= Config.MAX_SPEED_MS * 1.5.
Proof.
  unfold update_physics.
  destruct (advance_speed dt
              (rule_chain is_me_drowsy (scan self all_vehicles) (reset_flags dt self)))
    as [s Hs].
  rewrite Hs. split.
  - apply py_max_lower.
  - apply py_max_upper.
    + apply top_speed_nonneg.
    + apply py_min_upper.
Qed.

(** C3.  After one call of [update_physics] the speed lies between 0 and
    1.5 times [MAX_SPEED_MS], for every vehicle, every time step (hence
    every [dt >= 0]), every earlier target speed and every set of known
    vehicles, drowsy or not. *)
Theorem speed_bound_after_update (dt : Q) (all_vehicles : list Vehicle)
    (is_me_drowsy : bool) (self : Vehicle) :
  let self' := update_physics dt all_vehicles is_me_drowsy self in
  0 <= speed self' /\ speed self' <= Config.MAX_SPEED_MS * 1.5.
Proof.
  exact (update_physics_speed_range dt all_vehicles is_me_drowsy self).
Qed.

(** ** Position after one step *)

Lemma reset_flags_frame (dt : Q) (v : Vehicle) :
  let v' := reset_flags dt v in
  id v' = id v /\ is_emergency v' = is_emergency v /\ lane v' = lane v /\
  x v' = x v /\ speed v' = speed v /\ target_speed v' = target_speed v /\
  user_target_speed v' = user_target_speed v /\
  warning_vehicle_ahead v' = false /\ braking v' = false /\
  drowsy_alert v' = drowsy_alert v /\
  lane_change_cooldown v' = lane_change_cooldown v - dt.
Proof. simpl. repeat split; reflexivity. Qed.

(** The rule chain writes neither the position nor the speed. *)
Lemma rule_chain_x_speed (b : bool) (s : Scan) (v : Vehicle) :
  x (rule_chain b s v) = x v /\ speed (rule_chain b s v) = speed v.
Proof.
  unfold rule_chain.
  repeat match goal with
         | |- context [if ?c then _ else _] => destruct c
         | |- context [match ?o with Some _ => _ | None => _ end] => destruct o
         end; simpl; split; reflexivity.
Qed.

Lemma advance_x (dt : Q) (v : Vehicle) :
  let moved := x v + speed (advance dt v) * dt in
  x (advance dt v) = if Qltb Config.TOTAL_LENGTH moved then 0 else moved.
Proof.
  unfold advance.
  repeat match goal with |- context [if ?c then _ else _] => destruct c eqn:? end;
    simpl in *; try reflexivity; congruence.
Qed.

Lemma Qfloor_unique (q : Q) (z : Z) :
  inject_Z z <= q -> q < inject_Z (z + 1) -> Qfloor q = z.
Proof.
  intros Hlo Hhi.
  pose proof (Qfloor_le q) as H1. pose proof (Qlt_floor q) as H2.
  assert (Hup : inject_Z (Qfloor q) < inject_Z (z + 1)) by lra.
  assert (Hdn : inject_Z z < inject_Z (Qfloor q + 1)) by lra.
  rewrite <- Zlt_Qlt in Hup, Hdn. lia.
Qed.

Lemma Qmodulo_small (a : Q) :
  0 <= a -> a < Config.TOTAL_LENGTH -> Qmodulo a Config.TOTAL_LENGTH == a.
Proof.
  intros H0 H1. unfold Qmodulo, Config.TOTAL_LENGTH in *.
  rewrite (Qfloor_unique (a / 2000) 0).
  - change (inject_Z 0) with 0. lra.
  - change (a / 2000) with (a * (1 # 2000)). change (inject_Z 0) with 0. lra.
  - change (a / 2000) with (a * (1 # 2000)). change (inject_Z (0 + 1)) with 1. lra.
Qed.

Lemma Qmodulo_lifted (a : Q) :
  - Config.TOTAL_LENGTH <= a -> a < 0 ->
  Qmodulo a Config.TOTAL_LENGTH == a + Config.TOTAL_LENGTH.
Proof.
  intros H0 H1. unfold Qmodulo, Config.TOTAL_LENGTH in *.
  rewrite (Qfloor_unique (a / 2000) (-1)).
  - change (inject_Z (-1)) with (-1 # 1). lra.
  - change (a / 2000) with (a * (1 # 2000)). change (inject_Z (-1)) with (-1 # 1). lra.
  - change (a / 2000) with (a * (1 # 2000)). change (inject_Z (-1 + 1)) with 0. lra.
Qed.

(** C4 (as amended).  From a position in [[0, TOTAL_LENGTH)] and with
    [dt >= 0], one call of [update_physics] moves the vehicle to
    [old + speed * dt] (speed as updated in the same call) when that sum
    does not exceed [TOTAL_LENGTH] -- which is the sum modulo
    [TOTAL_LENGTH] when it is below [TOTAL_LENGTH] -- and to [0] when it
    exceeds [TOTAL_LENGTH]; the new position lies in
    [[0, TOTAL_LENGTH]]. *)
Theorem position_after_update (dt : Q) (all_vehicles : list Vehicle)
    (is_me_drowsy : bool) (self : Vehicle) :
  on_track self -> 0 <= dt ->
  let self' := update_physics dt all_vehicles is_me_drowsy self in
  let moved := x self + speed self' * dt in
  (moved < Config.TOTAL_LENGTH -> x self' == Qmodulo moved Config.TOTAL_LENGTH) /\
  (moved <= Config.TOTAL_LENGTH -> x self' == moved) /\
  (Config.TOTAL_LENGTH < moved -> x self' == 0) /\
  0 <= x self' /\ x self' <= Config.TOTAL_LENGTH.
Proof.
  intros [Hx0 Hx1] Hdt self' moved.
  pose proof (update_physics_speed_range dt all_vehicles is_me_drowsy self) as [Hs0 _].
  fold self' in Hs0.
  assert (Hstep : 0 <= speed self' * dt) by (apply Qmult_le_0_compat; assumption).
  assert (Hmoved : 0 <= moved) by (unfold moved; lra).
  assert (Hx : x self' = if Qltb Config.TOTAL_LENGTH moved then 0 else moved).
  { unfold self', moved, update_physics.
    rewrite advance_x.
    destruct (rule_chain_x_speed is_me_drowsy (scan self all_vehicles)
                (reset_flags dt self)) as [-> _].
    reflexivity. }
  rewrite Hx. unfold Config.TOTAL_LENGTH in *.
  destruct (Qltb 2000 moved) eqn:E.
  - apply Qltb_lt in E. repeat split; intros; lra.
  - apply Qltb_ge in E. repeat split; intros; try lra.
    rewrite Qmodulo_small; unfold Config.TOTAL_LENGTH; lra.
Qed.

(** Witness for [position_after_update]: a car at 100 m driving 25 m/s
    for one second. *)
Lemma position_after_update_witness :
  let self := car "CAR1" 1 100 25 false in
  let self' := update_physics 1 [] false self in
  let moved := x self + speed self' * 1 in
  (moved < Config.TOTAL_LENGTH -> x self' == Qmodulo moved Config.TOTAL_LENGTH) /\
  (moved <= Config.TOTAL_LENGTH -> x self' == moved) /\
  (Config.TOTAL_LENGTH < moved -> x self' == 0) /\
  0 <= x self' /\ x self' <= Config.TOTAL_LENGTH.
Proof.
  apply (position_after_update 1 [] false (car "CAR1" 1 100 25 false)).
  - split; vm_compute; [discriminate | reflexivity].
  - vm_compute; discriminate.
Defined.

(** Counterexample to C4 as stated: a car at 1990 m driving 25 m/s for
    one second is put at 0, while [(1990 + 25) mod 2000] is 15. *)
Lemma position_not_modulo :
  let self := car "CAR1" 1 1990 25 false in
  let self' := update_physics 1 [] false self in
  on_track self /\ 0 <= 1 /\
  ~ (x self' == Qmodulo (x self + speed self' * 1) Config.TOTAL_LENGTH).
Proof.
  split; [| split].
  - split; vm_compute; [discriminate | reflexivity].
  - vm_compute; discriminate.
  - intros H. vm_compute in H. discriminate H.
Qed.

(** The position [TOTAL_LENGTH] itself is kept: the test is a strict
    [>]. *)
Example position_can_reach_track_length :
  x (update_physics 1 [] false (car "CAR1" 1 1975 25 false)) == Config.TOTAL_LENGTH.
Proof. vm_compute. reflexivity. Qed.

(** ** The rule chain *)

(** With the driver impaired the scan results are never consulted. *)
Lemma rule_chain_drowsy_ignores_scan (s s' : Scan) (v : Vehicle) :
  rule_chain true s v = rule_chain true s' v.
Proof. reflexivity. Qed.

Lemma rule_chain_drowsy_lane_change (s : Scan) (v : Vehicle) :
  lane v <> Config.SERVICE_LANE_INDEX ->
  lane_change_cooldown v <= 0 ->
  rule_chain true s v =
    set_lane_change_cooldown 1.0 (set_lane (lane v + 1)%Z (set_drowsy_alert true v)).
Proof.
  intros Hlane Hcool. unfold rule_chain. simpl.
  destruct (Z.eqb_spec (lane v) Config.SERVICE_LANE_INDEX) as [E | _]; [contradiction |].
  simpl. apply Qle_bool_iff in Hcool. rewrite Hcool. reflexivity.
Qed.

(** C7.  A vehicle whose driver is impaired, whose lane is a valid lane
    other than the service lane, and whose cooldown has run out once this
    tick's [dt] is subtracted: one call of [update_physics] raises
    [drowsy_alert], moves the lane by exactly one toward the service lane,
    sets the cooldown to 1.0, leaves [braking] and [warning_vehicle_ahead]
    cleared and [target_speed] as it was, and gives the same result
    whatever the other known vehicles are, so no following-distance rule
    takes part. *)
Theorem impaired_driver_moves_toward_service_lane (dt : Q)
    (all_vehicles others : list Vehicle) (self : Vehicle) :
  (0 <= lane self < Config.LANE_COUNT)%Z ->
  lane self <> Config.SERVICE_LANE_INDEX ->
  lane_change_cooldown self - dt <= 0 ->
  let self' := update_physics dt all_vehicles true self in
  drowsy_alert self' = true /\
  lane self' = (lane self + 1)%Z /\
  (lane self < lane self' <= Config.SERVICE_LANE_INDEX)%Z /\
  lane_change_cooldown self' = 1.0 /\
  braking self' = false /\
  warning_vehicle_ahead self' = false /\
  target_speed self' = target_speed self /\
  self' = update_physics dt others true self.
Proof.
  intros Hvalid Hlane Hcool self'.
  assert (Hsame : self' = update_physics dt others true self).
  { unfold self', update_physics.
    apply (f_equal (advance dt)), rule_chain_drowsy_ignores_scan. }
  split; [| split; [| split; [| split; [| split; [| split; [| split]]]]]];
    try exact Hsame.
  all: unfold self', update_physics.
  all: destruct (advance_frame dt
              (rule_chain true (scan self all_vehicles) (reset_flags dt self)))
    as (_ & _ & Hl & Ht & Hw & Hb & Hd & Hc).
  all: rewrite ?Hl, ?Ht, ?Hw, ?Hb, ?Hd, ?Hc.
  all: rewrite (rule_chain_drowsy_lane_change (scan self all_vehicles)
                  (reset_flags dt self) Hlane Hcool); simpl.
  all: unfold Config.LANE_COUNT, Config.SERVICE_LANE_INDEX in *.
  all: try reflexivity; lia.
Qed.

(** Witness for C7: a car in lane 1 with no cooldown pending. *)
Lemma impaired_driver_moves_toward_service_lane_witness :
  let self := car "CAR1" 1 100 25 false in
  let self' := update_physics (1 # 60) [self; car "CAR2" 1 150 0 false] true self in
  drowsy_alert self' = true /\
  lane self' = (lane self + 1)%Z /\
  (lane self < lane self' <= Config.SERVICE_LANE_INDEX)%Z /\
  lane_change_cooldown self' = 1.0 /\
  braking self' = false /\
  warning_vehicle_ahead self' = false /\
  target_speed self' = target_speed self /\
  self' = update_physics (1 # 60) [] true self.
Proof.
  apply (impaired_driver_moves_toward_service_lane (1 # 60)
           [car "CAR1" 1 100 25 false; car "CAR2" 1 150 0 false] []
           (car "CAR1" 1 100 25 false)).
  - simpl. unfold Config.LANE_COUNT. lia.
  - simpl. unfold Config.SERVICE_LANE_INDEX. lia.
  - vm_compute. discriminate.
Defined.

(** The rule chain writes [drowsy_alert] only when the driver is
    impaired. *)
Lemma rule_chain_keeps_drowsy_alert (s : Scan) (v : Vehicle) :
  drowsy_alert (rule_chain false s v) = drowsy_alert v.
Proof.
  unfold rule_chain.
  repeat match goal with
         | |- context [if ?c then _ else _] => destruct c
         | |- context [match ?o with Some _ => _ | None => _ end] => destruct o
         end; reflexivity.
Qed.

(** C10, the behaviour of the code.  With the driver not impaired,
    [update_physics] leaves [drowsy_alert] at its earlier value: unlike
    [braking] and [warning_vehicle_ahead], which lines 176-177 clear on
    every call, the flag is never cleared.  A car that raised the flag in
    an earlier tick and now drives alone with an attentive driver still
    carries [drowsy_alert = True] after the call, with [braking]
    cleared. *)
Theorem drowsy_alert_is_never_cleared :
  (forall dt all_vehicles self,
     drowsy_alert (update_physics dt all_vehicles false self) = drowsy_alert self) /\
  (let self := set_drowsy_alert true (set_braking true (car "CAR1" 3 100 0 false)) in
   let self' := update_physics (1 # 60) [self] false self in
   drowsy_alert self' = true /\ braking self' = false).
Proof.
  split.
  - intros dt all_vehicles self. unfold update_physics.
    destruct (advance_frame dt
                (rule_chain false (scan self all_vehicles) (reset_flags dt self)))
      as (_ & _ & _ & _ & _ & _ & Hd & _).
    rewrite Hd, rule_chain_keeps_drowsy_alert. reflexivity.
  - split; vm_compute; reflexivity.
Qed.

(** ** The scan loop *)

Section ScanLoop.
Variable self : Vehicle.

(** Once the nearest distance is below a bound it stays below it. *)
Lemma scan_step_keeps_near (c : Q) (s : Scan) (other : Vehicle) :
  dist_lt (dist_to_ahead s) c = true ->
  dist_lt (dist_to_ahead (scan_step self s other)) c = true.
Proof.
  intros Hs. unfold scan_step.
  destruct (String.eqb (id other) (id self)); [exact Hs |].
  destruct (lane other =? lane self)%Z; [| exact Hs].
  assert (H1 : dist_lt
                 (dist_to_ahead
                    (if lt_dist (d_ahead self other) (dist_to_ahead s)
                     then {| dist_to_ahead := Fin (d_ahead self other);
                             speed_of_car_ahead := Some (speed other);
                             ambulance_behind := ambulance_behind s |}
                     else s)) c = true).
  { destruct (lt_dist (d_ahead self other) (dist_to_ahead s)) eqn:E; [| exact Hs].
    destruct (dist_to_ahead s) as [| d]; simpl in *; [discriminate |].
    apply Qltb_lt in E, Hs. apply Qltb_lt. lra. }
  destruct (is_emergency other && Qltb (d_behind self other) Config.AMBULANCE_DIST);
    exact H1.
Qed.

Lemma scan_loop_keeps_near (c : Q) (l : list Vehicle) (s : Scan) :
  dist_lt (dist_to_ahead s) c = true ->
  dist_lt (dist_to_ahead (fold_left (scan_step self) l s)) c = true.
Proof.
  revert s. induction l as [| a l IH]; intros s Hs; simpl.
  - exact Hs.
  - apply IH, scan_step_keeps_near, Hs.
Qed.

(** Meeting another vehicle of the same lane brings the nearest
    distance down to its distance at least. *)
Lemma scan_step_sees_ahead (c : Q) (s : Scan) (other : Vehicle) :
  id other <> id self -> lane other = lane self ->
  d_ahead self other < c ->
  dist_lt (dist_to_ahead (scan_step self s other)) c = true.
Proof.
  intros Hid Hlane Hd. unfold scan_step.
  apply String.eqb_neq in Hid. rewrite Hid.
  apply Z.eqb_eq in Hlane. rewrite Hlane.
  assert (H1 : dist_lt
                 (dist_to_ahead
                    (if lt_dist (d_ahead self other) (dist_to_ahead s)
                     then {| dist_to_ahead := Fin (d_ahead self other);
                             speed_of_car_ahead := Some (speed other);
                             ambulance_behind := ambulance_behind s |}
                     else s)) c = true).
  { destruct (lt_dist (d_ahead self other) (dist_to_ahead s)) eqn:E.
    - simpl. apply Qltb_lt, Hd.
    - destruct (dist_to_ahead s) as [| d]; simpl in *; [discriminate |].
      apply Qltb_ge in E. apply Qltb_lt. lra. }
  destruct (is_emergency other && Qltb (d_behind self other) Config.AMBULANCE_DIST);
    exact H1.
Qed.

Lemma scan_loop_sees_ahead (c : Q) (other : Vehicle) (l : list Vehicle) (s : Scan) :
  other ∈ l -> id other <> id self -> lane other = lane self ->
  d_ahead self other < c ->
  dist_lt (dist_to_ahead (fold_left (scan_step self) l s)) c = true.
Proof.
  intros Hin Hid Hlane Hd. revert s.
  induction l as [| a l IH]; intros s.
  - apply elem_of_nil in Hin. contradiction.
  - simpl. apply elem_of_cons in Hin as [<- | Hin].
    + apply scan_loop_keeps_near, scan_step_sees_ahead; assumption.
    + apply IH, Hin.
Qed.

(** The ambulance flag is only ever raised. *)
Lemma scan_step_keeps_ambulance (s : Scan) (other : Vehicle) :
  ambulance_behind s = true ->
  ambulance_behind (scan_step self s other) = true.
Proof.
  intros Hs. unfold scan_step.
  repeat match goal with |- context [if ?c then _ else _] => destruct c end;
    simpl; auto.
Qed.

Lemma scan_loop_keeps_ambulance (l : list Vehicle) (s : Scan) :
  ambulance_behind s = true ->
  ambulance_behind (fold_left (scan_step self) l s) = true.
Proof.
  revert s. induction l as [| a l IH]; intros s Hs; simpl.
  - exact Hs.
  - apply IH, scan_step_keeps_ambulance, Hs.
Qed.

Lemma scan_step_sees_ambulance (s : Scan) (other : Vehicle) :
  id other <> id self -> lane other = lane self ->
  is_emergency other = true ->
  d_behind self other < Config.AMBULANCE_DIST ->
  ambulance_behind (scan_step self s other) = true.
Proof.
  intros Hid Hlane Hemb Hd. unfold scan_step.
  apply String.eqb_neq in Hid. rewrite Hid.
  apply Z.eqb_eq in Hlane. rewrite Hlane.
  apply Qltb_lt in Hd. rewrite Hemb, Hd. reflexivity.
Qed.

Lemma scan_loop_sees_ambulance (other : Vehicle) (l : list Vehicle) (s : Scan) :
  other ∈ l -> id other <> id self -> lane other = lane self ->
  is_emergency other = true ->
  d_behind self other < Config.AMBULANCE_DIST ->
  ambulance_behind (fold_left (scan_step self) l s) = true.
Proof.
  intros Hin Hid Hlane Hemb Hd. revert s.
  induction l as [| a l IH]; intros s.
  - apply elem_of_nil in Hin. contradiction.
  - simpl. apply elem_of_cons in Hin as [<- | Hin].
    + apply scan_loop_keeps_ambulance, scan_step_sees_ambulance; assumption.
    + apply IH, Hin.
Qed.

(** Without an emergency vehicle among the others the flag stays down,
    and the yield rule cannot fire. *)
Lemma scan_loop_no_emergency (l : list Vehicle) (s : Scan) :
  ambulance_behind s = false ->
  (forall other, other ∈ l -> is_emergency other = false) ->
  ambulance_behind (fold_left (scan_step self) l s) = false.
Proof.
  revert s. induction l as [| a l IH]; intros s Hs Hnone; simpl.
  - exact Hs.
  - apply IH.
    + unfold scan_step. rewrite (Hnone a (list_elem_of_here a l)). simpl.
      repeat match goal with |- context [if ?c then _ else _] => destruct c end;
        simpl; exact Hs.
    + intros other Hin. apply Hnone, list_elem_of_further, Hin.
Qed.

(** On valid positions the program's distances are the circular ones
    of the specification. *)
Lemma d_ahead_is_forward_distance (other : Vehicle) :
  on_track self -> on_track other ->
  d_ahead self other == forward_distance self other.
Proof.
  intros [Hs0 Hs1] [Ho0 Ho1]. unfold d_ahead, forward_distance.
  unfold Config.TOTAL_LENGTH in *.
  destruct (Qltb (x other - x self) 0) eqn:E.
  - apply Qltb_lt in E.
    rewrite Qmodulo_lifted; unfold Config.TOTAL_LENGTH; lra.
  - apply Qltb_ge in E.
    rewrite Qmodulo_small; unfold Config.TOTAL_LENGTH; lra.
Qed.

Lemma d_behind_is_backward_distance (other : Vehicle) :
  on_track self -> on_track other ->
  d_behind self other == backward_distance self other.
Proof.
  intros [Hs0 Hs1] [Ho0 Ho1]. unfold d_behind, backward_distance.
  unfold Config.TOTAL_LENGTH in *.
  destruct (Qltb (x self - x other) 0) eqn:E.
  - apply Qltb_lt in E.
    rewrite Qmodulo_lifted; unfold Config.TOTAL_LENGTH; lra.
  - apply Qltb_ge in E.
    rewrite Qmodulo_small; unfold Config.TOTAL_LENGTH; lra.
Qed.
End ScanLoop.

(** ** Critical following distance and yielding *)

Lemma rule_chain_critical (s : Scan) (v : Vehicle) :
  yield_rule_fires s v = false ->
  is_emergency v = false ->
  dist_lt (dist_to_ahead s) Config.CRITICAL_DIST = true ->
  rule_chain false s v =
    set_braking true (set_warning_vehicle_ahead true (set_target_speed 0 v)).
Proof.
  intros Hy He Hd. unfold rule_chain. rewrite Hy, He, Hd. reflexivity.
Qed.

Lemma rule_chain_yield (s : Scan) (v : Vehicle) :
  yield_rule_fires s v = true ->
  rule_chain false s v =
    set_lane_change_cooldown 2.0
      (set_lane (if (lane v <? Config.LANE_COUNT - 1)%Z
                 then lane v + 1 else lane v - 1)%Z v).
Proof.
  intros Hy. unfold rule_chain. rewrite Hy.
  destruct (Z.ltb_spec (lane v) (Config.LANE_COUNT - 1)) as [Hlt | Hge].
  - reflexivity.
  - destruct (Z.ltb_spec 0 (lane v)) as [Hpos | Hneg]; [reflexivity |].
    unfold Config.LANE_COUNT in Hge. lia.
Qed.

(** C8.  A vehicle that is neither impaired nor an emergency vehicle, for
    which the yield rule does not fire, and that has another vehicle of
    its lane at a circular forward distance below [CRITICAL_DIST] (so the
    nearest one is below it too): [update_physics] sets [target_speed]
    to 0 and raises [braking] and [warning_vehicle_ahead].  In
    particular this is what happens to vehicle A at position 0, lane 1,
    speed 30 with vehicle B at position 50, lane 1, speed 0, for every
    time step. *)
Theorem critical_distance_hard_stop :
  (forall (dt : Q) (all_vehicles : list Vehicle) (self other : Vehicle),
     is_emergency self = false ->
     yield_rule_fires (scan self all_vehicles) (reset_flags dt self) = false ->
     on_track self -> on_track other ->
     other ∈ all_vehicles -> id other <> id self -> lane other = lane self ->
     forward_distance self other < Config.CRITICAL_DIST ->
     let self' := update_physics dt all_vehicles false self in
     target_speed self' = 0 /\ braking self' = true /\
     warning_vehicle_ahead self' = true) /\
  (forall dt : Q,
     let A := car "A" 1 0 30 false in
     let B := car "B" 1 50 0 false in
     let A' := update_physics dt [A; B] false A in
     target_speed A' = 0 /\ braking A' = true /\ warning_vehicle_ahead A' = true).
Proof.
  assert (General :
    forall (dt : Q) (all_vehicles : list Vehicle) (self other : Vehicle),
     is_emergency self = false ->
     yield_rule_fires (scan self all_vehicles) (reset_flags dt self) = false ->
     on_track self -> on_track other ->
     other ∈ all_vehicles -> id other <> id self -> lane other = lane self ->
     forward_distance self other < Config.CRITICAL_DIST ->
     let self' := update_physics dt all_vehicles false self in
     target_speed self' = 0 /\ braking self' = true /\
     warning_vehicle_ahead self' = true).
  { intros dt all_vehicles self other Hemb Hyield Hself Hother Hin Hid Hlane Hdist self'.
    assert (Hnear : dist_lt (dist_to_ahead (scan self all_vehicles))
                      Config.CRITICAL_DIST = true).
    { apply (scan_loop_sees_ahead self _ other); try assumption.
      rewrite d_ahead_is_forward_distance; assumption. }
    unfold self', update_physics.
    destruct (advance_frame dt
                (rule_chain false (scan self all_vehicles) (reset_flags dt self)))
      as (_ & _ & _ & Ht & Hw & Hb & _ & _).
    rewrite Ht, Hw, Hb.
    rewrite (rule_chain_critical _ _ Hyield Hemb Hnear). simpl. auto. }
  split; [exact General |].
  intros dt A B A'.
  apply (General dt [A; B] A B).
  - reflexivity.
  - reflexivity.
  - split; vm_compute; [discriminate | reflexivity].
  - split; vm_compute; [discriminate | reflexivity].
  - apply elem_of_cons. right. apply elem_of_cons. left. reflexivity.
  - discriminate.
  - reflexivity.
  - vm_compute. reflexivity.
Qed.

(** Witness for C8: the general statement used on a car 30 m behind a
    stopped one. *)
Lemma critical_distance_hard_stop_witness :
  let self := car "CAR1" 2 1990 20 false in
  let other := car "CAR2" 2 20 0 false in
  let self' := update_physics (1 # 60) [other; self] false self in
  target_speed self' = 0 /\ braking self' = true /\
  warning_vehicle_ahead self' = true.
Proof.
  apply (proj1 critical_distance_hard_stop (1 # 60)
           [car "CAR2" 2 20 0 false; car "CAR1" 2 1990 20 false]
           (car "CAR1" 2 1990 20 false) (car "CAR2" 2 20 0 false)).
  - reflexivity.
  - reflexivity.
  - split; vm_compute; [discriminate | reflexivity].
  - split; vm_compute; [discriminate | reflexivity].
  - apply elem_of_cons. left. reflexivity.
  - discriminate.
  - reflexivity.
  - vm_compute. reflexivity.
Defined.

(** C9 (as amended).  A vehicle that is neither impaired nor an emergency
    vehicle, whose cooldown has run out once this tick's [dt] is
    subtracted, and that has an emergency vehicle of its lane at a
    circular backward distance below [AMBULANCE_DIST]: [update_physics]
    moves it by exactly one lane, outward (to the next higher lane)
    unless it is at the outer edge and inward otherwise, and sets the
    cooldown to 2.0.  In particular a car at position 0 with an emergency
    vehicle 350 behind it on the circular track, that is at position
    1650, leaves lane 1 for lane 2 in one tick. *)
Theorem yield_to_emergency_behind :
  (forall (dt : Q) (all_vehicles : list Vehicle) (self other : Vehicle),
     is_emergency self = false ->
     lane_change_cooldown self - dt <= 0 ->
     on_track self -> on_track other ->
     other ∈ all_vehicles -> id other <> id self -> lane other = lane self ->
     is_emergency other = true ->
     backward_distance self other < Config.AMBULANCE_DIST ->
     let self' := update_physics dt all_vehicles false self in
     lane self' = (if (lane self <? Config.LANE_COUNT - 1)%Z
                   then lane self + 1 else lane self - 1)%Z /\
     lane_change_cooldown self' = 2.0) /\
  (forall dt : Q, 0 <= dt ->
     let self := car "CAR1" 1 0 25 false in
     let amb := car "AMB-1" 1 1650 Config.MAX_SPEED_MS true in
     let self' := update_physics dt [self; amb] false self in
     backward_distance self amb == 350 /\
     lane self' = 2%Z /\ lane_change_cooldown self' = 2.0).
Proof.
  assert (General :
    forall (dt : Q) (all_vehicles : list Vehicle) (self other : Vehicle),
     is_emergency self = false ->
     lane_change_cooldown self - dt <= 0 ->
     on_track self -> on_track other ->
     other ∈ all_vehicles -> id other <> id self -> lane other = lane self ->
     is_emergency other = true ->
     backward_distance self other < Config.AMBULANCE_DIST ->
     let self' := update_physics dt all_vehicles false self in
     lane self' = (if (lane self <? Config.LANE_COUNT - 1)%Z
                   then lane self + 1 else lane self - 1)%Z /\
     lane_change_cooldown self' = 2.0).
  { intros dt all_vehicles self other Hemb Hcool Hself Hother Hin Hid Hlane Ho Hdist self'.
    assert (Hamb : ambulance_behind (scan self all_vehicles) = true).
    { apply (scan_loop_sees_ambulance self other); try assumption.
      rewrite d_behind_is_backward_distance; assumption. }
    assert (Hyield : yield_rule_fires (scan self all_vehicles) (reset_flags dt self) = true).
    { unfold yield_rule_fires. rewrite Hamb. simpl. rewrite Hemb. simpl.
      apply Qle_bool_iff, Hcool. }
    unfold self', update_physics.
    destruct (advance_frame dt
                (rule_chain false (scan self all_vehicles) (reset_flags dt self)))
      as (_ & _ & Hl & _ & _ & _ & _ & Hc).
    rewrite Hl, Hc, (rule_chain_yield _ _ Hyield). simpl. auto. }
  split; [exact General |].
  intros dt Hdt self amb self'.
  split; [vm_compute; reflexivity |].
  apply (General dt [self; amb] self amb).
  - reflexivity.
  - simpl. lra.
  - split; vm_compute; [discriminate | reflexivity].
  - split; vm_compute; [discriminate | reflexivity].
  - apply elem_of_cons. right. apply elem_of_cons. left. reflexivity.
  - discriminate.
  - reflexivity.
  - reflexivity.
  - vm_compute. reflexivity.
Qed.

(** Witness for C9: a car in the service lane with an ambulance 100 m
    behind it moves inward. *)
Lemma yield_to_emergency_behind_witness :
  let self := car "CAR1" 3 500 25 false in
  let amb := car "AMB-1" 3 400 Config.MAX_SPEED_MS true in
  let self' := update_physics (1 # 60) [self; amb] false self in
  lane self' = 2%Z /\ lane_change_cooldown self' = 2.0.
Proof.
  apply (proj1 yield_to_emergency_behind (1 # 60)
           [car "CAR1" 3 500 25 false; car "AMB-1" 3 400 Config.MAX_SPEED_MS true]
           (car "CAR1" 3 500 25 false)
           (car "AMB-1" 3 400 Config.MAX_SPEED_MS true)).
  - reflexivity.
  - vm_compute. discriminate.
  - split; vm_compute; [discriminate | reflexivity].
  - split; vm_compute; [discriminate | reflexivity].
  - apply elem_of_cons. right. apply elem_of_cons. left. reflexivity.
  - discriminate.
  - reflexivity.
  - reflexivity.
  - vm_compute. reflexivity.
Defined.

(** Counterexample to C9 as stated: with the emergency vehicle at
    position 350 and the car at position 0 in the same lane, the
    emergency vehicle is 350 ahead; its backward circular distance is
    1650, the yield rule does not fire, and the car keeps its lane and
    its cooldown although the tick is cooldown-eligible. *)
Lemma emergency_at_350_is_ahead :
  let self := car "CAR1" 1 0 25 false in
  let amb := car "AMB-1" 1 350 Config.MAX_SPEED_MS true in
  let self' := update_physics (1 # 60) [self; amb] false self in
  lane_change_cooldown self - (1 # 60) <= 0 /\
  backward_distance self amb == 1650 /\
  lane self' = lane self /\
  ~ (lane_change_cooldown self' == 2.0).
Proof.
  split; [| split; [| split]].
  - vm_compute. discriminate.
  - vm_compute. reflexivity.
  - vm_compute. reflexivity.
  - intros H. vm_compute in H. discriminate H.
Qed.

(** ** Codec *)

(** C6.  Decoding the encoding of a vehicle succeeds and gives a vehicle
    with the same id, lane, position, speed, emergency flag, colour,
    drowsy alert and braking flag. *)
Theorem codec_round_trip (env : Env) (v : Vehicle) :
  exists v', from_json env (to_json v) = Some v' /\
    id v' = id v /\ lane v' = lane v /\ x v' = x v /\ speed v' = speed v /\
    is_emergency v' = is_emergency v /\ color v' = color v /\
    drowsy_alert v' = drowsy_alert v /\ braking v' = braking v.
Proof.
  eexists. split.
  - unfold from_json, to_json, json_dumps. simpl. reflexivity.
  - simpl. repeat split; reflexivity.
Qed.

(** What decoding does with the fields that are not on the wire. *)
Lemma from_json_local_fields (env : Env) (v v' : Vehicle) :
  from_json env (to_json v) = Some v' ->
  visual_lane v' = inject_Z (lane v) /\ last_update v' = time_time env /\
  user_target_speed v' = 25 /\ lane_change_cooldown v' = 0 /\
  warning_vehicle_ahead v' = false.
Proof.
  unfold from_json, to_json, json_dumps. simpl. intros [= <-]. simpl.
  repeat split; reflexivity.
Qed.


(** ** Replication store: [on_message] *)

(** Calling the ambulance never rebinds a key that is in use, the local
    one in particular. *)
Lemma spawn_ambulance_click_keeps (env : Env) (app : V2XApp) (vid : string) :
  is_Some (vehicles app !! vid) ->
  vehicles (spawn_ambulance_click env app) !! vid = vehicles app !! vid.
Proof.
  intros Hused. unfold spawn_ambulance_click.
  destruct (vehicles app !! "AMB-1") eqn:Hamb; [reflexivity |].
  simpl. apply lookup_insert_ne. intros <-.
  rewrite Hamb in Hused. destruct Hused as [e He]. discriminate He.
Qed.

(** [on_message] rebinds neither the local id nor the ownership flag. *)
Lemma on_message_identity (env : Env) (p : Payload) (app : V2XApp) :
  my_vehicle_id (on_message env p app) = my_vehicle_id app /\
  i_own_ambulance (on_message env p app) = i_own_ambulance app.
Proof.
  unfold on_message.
  repeat match goal with
         | |- context [match ?o with _ => _ end] => destruct o
         end; simpl; split; reflexivity.
Qed.

(** A message changes at most the entry of the id it carries, and only
    when that id is neither the local one nor a locally owned
    ["AMB-1"]. *)
Lemma on_message_guarded (env : Env) (p : Payload) (app : V2XApp) (vid : string) :
  vid = my_vehicle_id app \/ (vid = "AMB-1" /\ i_own_ambulance app = true) ->
  vehicles (on_message env p app) !! vid = vehicles app !! vid.
Proof.
  intros Hguard. unfold on_message.
  destruct (json_loads p) as [d |]; [| reflexivity].
  destruct (getitem d key_id) as [uid |]; [| reflexivity].
  destruct (String.eqb_spec uid (my_vehicle_id app)) as [-> | Hne]; simpl;
    [reflexivity |].
  destruct (String.eqb_spec uid "AMB-1") as [-> | Hamb]; simpl.
  - destruct (i_own_ambulance app) eqn:Hown; simpl; [reflexivity |].
    assert (vid <> "AMB-1").
    { destruct Hguard as [-> | [_ H]]; [exact (not_eq_sym Hne) | discriminate H]. }
    destruct (vehicles app !! "AMB-1") as [[v |] |]; simpl;
      try reflexivity; apply lookup_insert_ne; congruence.
  - assert (vid <> uid).
    { destruct Hguard as [-> | [-> _]]; congruence. }
    destruct (vehicles app !! uid) as [[v |] |]; simpl;
      try reflexivity; apply lookup_insert_ne; congruence.
Qed.

(** C2.  Whatever sequence of inbound messages is applied, the entry of
    the local vehicle is what it was, and as long as the agent owns
    ["AMB-1"] (which no message changes) so is the entry of
    ["AMB-1"]. *)
Theorem own_state_immune_to_messages (msgs : list (Env * Payload)) (app : V2XApp) :
  let app' := deliver msgs app in
  my_vehicle_id app' = my_vehicle_id app /\
  i_own_ambulance app' = i_own_ambulance app /\
  vehicles app' !! my_vehicle_id app = vehicles app !! my_vehicle_id app /\
  (i_own_ambulance app = true ->
   vehicles app' !! "AMB-1" = vehicles app !! "AMB-1").
Proof.
  unfold deliver. revert app.
  induction msgs as [| [env p] msgs IH]; intros app; simpl.
  - repeat split; reflexivity.
  - destruct (on_message_identity env p app) as [Hid Hown].
    destruct (IH (on_message env p app)) as (IH1 & IH2 & IH3 & IH4).
    rewrite Hid in IH1, IH3. rewrite Hown in IH2, IH4.
    split; [exact IH1 |]. split; [exact IH2 |]. split.
    + rewrite IH3. apply on_message_guarded. left. reflexivity.
    + intros Hmine. rewrite (IH4 Hmine).
      apply on_message_guarded. right. split; [reflexivity | exact Hmine].
Qed.

(** Witness for C2: an agent that has called the ambulance receives an
    echo of its own state, a foreign claim on ["AMB-1"], a new peer and
    garbage. *)
Lemma own_state_immune_to_messages_witness :
  let app := spawn_ambulance_click (env_at 1) (V2XApp_init (env_at 0) "CAR1") in
  let msgs := [ (env_at 2, to_json (car "CAR1" 3 9 9 false));
                (env_at 3, to_json (car "AMB-1" 2 77 5 true));
                (env_at 4, to_json (car "CAR2" 1 50 10 false));
                (env_at 5, NotJson);
                (env_at 6, only_id_x "AMB-1" 500) ] in
  let app' := deliver msgs app in
  vehicles app' !! "CAR1" = vehicles app !! "CAR1" /\
  vehicles app' !! "AMB-1" = vehicles app !! "AMB-1".
Proof.
  intros app msgs app'.
  destruct (own_state_immune_to_messages msgs app) as (_ & _ & Hself & Hamb).
  split.
  - exact Hself.
  - apply Hamb. reflexivity.
Defined.

(** Text that is not JSON, JSON that is not an object and an object
    without ["id"] are dropped without effect. *)
Lemma on_message_drops_undecodable (env : Env) (p : Payload) (app : V2XApp) :
  match p with
  | NotJson | Text JOther => True
  | Text (JObject d) => key_id d = None
  end ->
  on_message env p app = app.
Proof.
  destruct p as [| [d |]]; try reflexivity.
  intros H. unfold on_message. simpl. rewrite H. reflexivity.
Qed.

(** C1, the behaviour of the code.  Two messages that lack required
    fields and still change the store.  (a) An object with only ["id"],
    for an id not yet known: [from_json] fails and returns [None], and
    [on_message] stores that [None] under the new key.  (b) An object
    with only ["id"] and ["x"], for a known id: the position of the
    replica is overwritten before the missing ["lane"] raises, and the
    other fields and [last_update] stay as they were. *)
Theorem malformed_message_changes_store :
  let app := V2XApp_init (env_at 0) "CAR1" in
  (from_json (env_at 1) (only_id "CAR2") = None /\
   vehicles app !! "CAR2" = None /\
   vehicles (on_message (env_at 1) (only_id "CAR2") app) !! "CAR2" = Some None) /\
  (let app2 := on_message (env_at 1) (to_json (car "CAR2" 1 50 10 false)) app in
   from_json (env_at 2) (only_id_x "CAR2" 999) = None /\
   exists v v',
     vehicles app2 !! "CAR2" = Some (Some v) /\
     vehicles (on_message (env_at 2) (only_id_x "CAR2" 999) app2) !! "CAR2"
       = Some (Some v') /\
     x v = 50 /\ x v' = 999 /\
     lane v' = lane v /\ speed v' = speed v /\ last_update v' = last_update v).
Proof.
  split.
  - repeat split; vm_compute; reflexivity.
  - split; [reflexivity |].
    eexists. eexists.
    split; [vm_compute; reflexivity |].
    split; [vm_compute; reflexivity |].
    repeat split; reflexivity.
Qed.

(** ** Replication store: [cleanup_ghosts] *)

Lemma delete_all_absent (g : list string) (m : gmap string (option Vehicle))
    (k : string) :
  m !! k = None -> delete_all g m !! k = None.
Proof.
  unfold delete_all. revert m.
  induction g as [| a g IH]; intros m Hm; simpl; [exact Hm |].
  apply IH. destruct (decide (a = k)) as [-> | Hne].
  - apply lookup_delete_eq.
  - rewrite lookup_delete_ne by exact Hne. exact Hm.
Qed.

Lemma delete_all_member (g : list string) (m : gmap string (option Vehicle))
    (k : string) :
  k ∈ g -> delete_all g m !! k = None.
Proof.
  revert m. induction g as [| a g IH]; intros m Hin.
  - apply elem_of_nil in Hin. contradiction.
  - apply elem_of_cons in Hin as [-> | Hin].
    + change (delete_all g (delete a m) !! a = None).
      apply delete_all_absent, lookup_delete_eq.
    + exact (IH (delete a m) Hin).
Qed.

Lemma delete_all_other (g : list string) (m : gmap string (option Vehicle))
    (k : string) :
  k ∉ g -> delete_all g m !! k = m !! k.
Proof.
  revert m. induction g as [| a g IH]; intros m Hout; [reflexivity |].
  apply not_elem_of_cons in Hout as [Hne Hout].
  change (delete_all g (delete a m) !! k = m !! k).
  rewrite (IH (delete a m) Hout). apply lookup_delete_ne. congruence.
Qed.

Lemma list_remove_first_gone (s : string) (l : list string) :
  NoDup l -> s ∉ list_remove_first s l.
Proof.
  induction 1 as [| a l Ha Hl IH]; simpl.
  - apply not_elem_of_nil.
  - destruct (String.eqb_spec a s) as [-> | Hne]; [exact Ha |].
    apply not_elem_of_cons. split; [congruence | exact IH].
Qed.

Lemma list_remove_first_subset (s k : string) (l : list string) :
  k ∈ list_remove_first s l -> k ∈ l.
Proof.
  induction l as [| a l IH]; simpl; [trivial |].
  destruct (String.eqb a s).
  - apply list_elem_of_further.
  - intros [-> | Hin]%elem_of_cons.
    + apply list_elem_of_here.
    + apply list_elem_of_further, IH, Hin.
Qed.

Lemma list_remove_first_other (s k : string) (l : list string) :
  k <> s -> k ∈ l -> k ∈ list_remove_first s l.
Proof.
  intros Hne. induction l as [| a l IH]; simpl; [trivial |].
  intros [-> | Hin]%elem_of_cons.
  - destruct (String.eqb_spec a s) as [-> | _]; [contradiction |].
    apply list_elem_of_here.
  - destruct (String.eqb a s); [exact Hin |].
    apply list_elem_of_further, IH, Hin.
Qed.

Section GhostIds.
Variables (my_id : string) (now : Q).

(** The comprehension raises only on a [None] stored under a foreign
    key. *)
Lemma ghost_ids_total (items : list (string * option Vehicle)) :
  (forall k, k <> my_id -> (k, None) ∉ items) ->
  is_Some (ghost_ids my_id now items).
Proof.
  induction items as [| [k e] items IH]; intros Hok; simpl; [eauto |].
  assert (Hrest : is_Some (ghost_ids my_id now items)).
  { apply IH. intros k' Hk' Hin. apply (Hok k' Hk'), list_elem_of_further, Hin. }
  destruct (String.eqb_spec k my_id) as [-> | Hne]; simpl; [exact Hrest |].
  destruct e as [v |].
  - destruct Hrest as [g ->]. simpl. eauto.
  - exfalso. apply (Hok k Hne), list_elem_of_here.
Qed.

Lemma ghost_ids_sound (items : list (string * option Vehicle))
    (g : list string) (k : string) :
  ghost_ids my_id now items = Some g -> k ∈ g ->
  k <> my_id /\
  exists v, (k, Some v) ∈ items /\
            Qltb Config.GHOST_TIMEOUT (now - last_update v) = true.
Proof.
  revert g. induction items as [| [a e] items IH]; intros g; simpl.
  - intros [= <-] Hin. apply elem_of_nil in Hin. contradiction.
  - destruct (String.eqb_spec a my_id) as [-> | Hne]; simpl.
    + intros Hg Hin. destruct (IH g Hg Hin) as (Hk & v & Hv & Hstale).
      split; [exact Hk |]. exists v. split; [| exact Hstale].
      apply list_elem_of_further, Hv.
    + destruct e as [v |]; [| discriminate].
      destruct (ghost_ids my_id now items) as [g' |]; simpl; [| discriminate].
      destruct (Qltb Config.GHOST_TIMEOUT (now - last_update v)) eqn:E;
        intros [= <-] Hin.
      * apply elem_of_cons in Hin as [-> | Hin].
        -- split; [exact Hne |]. exists v. split; [apply list_elem_of_here | exact E].
        -- destruct (IH g' eq_refl Hin) as (Hk & v' & Hv' & Hstale).
           split; [exact Hk |]. exists v'. split; [| exact Hstale].
           apply list_elem_of_further, Hv'.
      * destruct (IH g' eq_refl Hin) as (Hk & v' & Hv' & Hstale).
        split; [exact Hk |]. exists v'. split; [| exact Hstale].
        apply list_elem_of_further, Hv'.
Qed.

Lemma ghost_ids_complete (items : list (string * option Vehicle))
    (g : list string) (k : string) (v : Vehicle) :
  ghost_ids my_id now items = Some g ->
  (k, Some v) ∈ items -> k <> my_id ->
  Qltb Config.GHOST_TIMEOUT (now - last_update v) = true ->
  k ∈ g.
Proof.
  intros Hg Hin Hk Hstale. revert g Hg.
  induction items as [| [a e] items IH]; intros g; simpl.
  - apply elem_of_nil in Hin. contradiction.
  - apply elem_of_cons in Hin as [[= <- <-] | Hin].
    + apply String.eqb_neq in Hk. rewrite Hk. simpl.
      destruct (ghost_ids my_id now items) as [g' |]; simpl; [| discriminate].
      rewrite Hstale. intros [= <-]. apply list_elem_of_here.
    + destruct (String.eqb a my_id); simpl; [exact (IH Hin g) |].
      destruct e as [v' |]; [| discriminate].
      destruct (ghost_ids my_id now items) as [g' |]; simpl; [| discriminate].
      specialize (IH Hin g' eq_refl).
      destruct (Qltb Config.GHOST_TIMEOUT (now - last_update v'));
        intros [= <-]; [apply list_elem_of_further |]; exact IH.
Qed.

Lemma ghost_ids_sublist (items : list (string * option Vehicle))
    (g : list string) :
  ghost_ids my_id now items = Some g -> g `sublist_of` items.*1.
Proof.
  revert g. induction items as [| [a e] items IH]; intros g; simpl.
  - intros [= <-]. constructor.
  - destruct (String.eqb a my_id); simpl.
    + intros Hg. apply sublist_cons, IH, Hg.
    + destruct e as [v |]; [| discriminate].
      destruct (ghost_ids my_id now items) as [g' |]; simpl; [| discriminate].
      specialize (IH g' eq_refl).
      destruct (Qltb Config.GHOST_TIMEOUT (now - last_update v));
        intros [= <-].
      * apply sublist_skip, IH.
      * apply sublist_cons, IH.
Qed.
End GhostIds.

Lemma sweepableb_sound (app : V2XApp) : sweepableb app = true -> sweepable app.
Proof.
  unfold sweepableb, sweepable. intros Hall vid Hne Hnone.
  rewrite forallb_forall in Hall.
  apply elem_of_map_to_list, list_elem_of_In in Hnone.
  specialize (Hall _ Hnone). simpl in Hall.
  apply String.eqb_neq in Hne. rewrite Hne in Hall. discriminate Hall.
Qed.

(** C5.  On a store the sweep can run through, [cleanup_ghosts] returns
    and: a replica (an entry that is neither the local vehicle nor a
    locally owned ["AMB-1"]) last updated at [t0] is removed when the
    clock reads more than [t0 + GHOST_TIMEOUT]; an entry last updated at
    [t0] is kept when the clock reads less than (or exactly)
    [t0 + GHOST_TIMEOUT]; the local vehicle's entry is never removed, and
    neither is ["AMB-1"] while the agent owns it. *)
Theorem ghost_sweep (env : Env) (app : V2XApp) :
  sweepable app ->
  exists app', cleanup_ghosts env app = Some app' /\
    (forall vid v,
       vehicles app !! vid = Some (Some v) ->
       vid <> my_vehicle_id app ->
       ~ (vid = "AMB-1" /\ i_own_ambulance app = true) ->
       last_update v + Config.GHOST_TIMEOUT < time_time env ->
       vehicles app' !! vid = None) /\
    (forall vid v,
       vehicles app !! vid = Some (Some v) ->
       time_time env <= last_update v + Config.GHOST_TIMEOUT ->
       vehicles app' !! vid = Some (Some v)) /\
    vehicles app' !! my_vehicle_id app = vehicles app !! my_vehicle_id app /\
    (i_own_ambulance app = true ->
     vehicles app' !! "AMB-1" = vehicles app !! "AMB-1").
Proof.
  intros Hok. unfold cleanup_ghosts.
  set (now := time_time env). set (me := my_vehicle_id app).
  set (items := map_to_list (vehicles app)).
  destruct (ghost_ids_total me now items) as [g Hg].
  { intros k Hk Hin. apply elem_of_map_to_list in Hin. exact (Hok k Hk Hin). }
  rewrite Hg. simpl.
  set (final := if i_own_ambulance app && bool_decide ("AMB-1" ∈ g)
                then list_remove_first "AMB-1" g else g).
  assert (Hnodup : NoDup g).
  { apply (sublist_NoDup _ (items.*1)).
    - apply NoDup_fst_map_to_list.
    - apply (ghost_ids_sublist me now), Hg. }
  assert (Hsub : forall k, k ∈ final -> k ∈ g).
  { intros k. unfold final.
    destruct (i_own_ambulance app && bool_decide ("AMB-1" ∈ g)); [| trivial].
    apply list_remove_first_subset. }
  assert (Hsup : forall k, k ∈ g ->
                   ~ (k = "AMB-1" /\ i_own_ambulance app = true) -> k ∈ final).
  { intros k Hin Hfree. unfold final.
    destruct (i_own_ambulance app) eqn:Hown; simpl; [| exact Hin].
    destruct (bool_decide ("AMB-1" ∈ g)); [| exact Hin].
    apply list_remove_first_other; [| exact Hin].
    intros ->. apply Hfree. split; reflexivity. }
  assert (Hamb : i_own_ambulance app = true -> "AMB-1" ∉ final).
  { intros Hown. unfold final. rewrite Hown. simpl.
    destruct (bool_decide_reflect ("AMB-1" ∈ g)) as [_ | Hout]; [| exact Hout].
    apply list_remove_first_gone, Hnodup. }
  assert (Hfresh : forall k v, vehicles app !! k = Some (Some v) ->
                     now <= last_update v + Config.GHOST_TIMEOUT -> k ∉ final).
  { intros k v Hk Hnow Hin.
    destruct (ghost_ids_sound me now items g k Hg (Hsub k Hin))
      as (_ & v' & Hv' & Hstale).
    apply elem_of_map_to_list in Hv'. rewrite Hk in Hv'.
    injection Hv' as <-. apply Qltb_lt in Hstale. lra. }
  eexists. split; [reflexivity |]. simpl.
  split; [| split; [| split]].
  - intros vid v Hv Hne Hfree Hlate.
    apply delete_all_member, Hsup; [| exact Hfree].
    apply (ghost_ids_complete me now items g vid v Hg).
    + apply elem_of_map_to_list, Hv.
    + exact Hne.
    + apply Qltb_lt. fold now in Hlate. lra.
  - intros vid v Hv Hearly.
    rewrite delete_all_other; [exact Hv |].
    apply (Hfresh vid v Hv Hearly).
  - apply delete_all_other. intros Hin.
    destruct (ghost_ids_sound me now items g me Hg (Hsub me Hin)) as (Hne & _).
    apply Hne. reflexivity.
  - intros Hown. apply delete_all_other, Hamb, Hown.
Qed.

(** Witness for C5: the agent owns the ambulance (created at time 0) and
    holds a replica of CAR2 last seen at time 1; at time 5 the sweep
    removes CAR2 and nothing else, at time 3.5 it removes nothing. *)
Lemma ghost_sweep_witness :
  let app := on_message (env_at 1) (to_json (car "CAR2" 1 50 10 false))
               (spawn_ambulance_click (env_at 0) (V2XApp_init (env_at 0) "CAR1")) in
  (exists app', cleanup_ghosts (env_at 5) app = Some app' /\
     vehicles app' !! "CAR2" = None /\
     vehicles app' !! "CAR1" = vehicles app !! "CAR1" /\
     vehicles app' !! "AMB-1" = vehicles app !! "AMB-1") /\
  (exists app', cleanup_ghosts (env_at 3.5) app = Some app' /\
     vehicles app' !! "CAR2" = vehicles app !! "CAR2").
Proof.
  intros app.
  assert (Hok : sweepable app) by (apply sweepableb_sound; vm_compute; reflexivity).
  assert (Hcar2 : exists v, vehicles app !! "CAR2" = Some (Some v) /\ last_update v = 1).
  { eexists. split; vm_compute; reflexivity. }
  destruct Hcar2 as (v & Hv & Hlast).
  split.
  - destruct (ghost_sweep (env_at 5) app Hok)
      as (app' & Hrun & Hremoved & _ & Hself & Hamb).
    exists app'. split; [exact Hrun |]. split; [| split].
    + apply (Hremoved "CAR2" v Hv).
      * discriminate.
      * intros [H _]. discriminate H.
      * rewrite Hlast. vm_compute. reflexivity.
    + exact Hself.
    + apply Hamb. reflexivity.
  - destruct (ghost_sweep (env_at 3.5) app Hok)
      as (app' & Hrun & _ & Hkept & _ & _).
    exists app'. split; [exact Hrun |].
    rewrite Hv. apply (Hkept "CAR2" v Hv).
    rewrite Hlast. vm_compute. discriminate.
Defined.

(** A [None] stored by [on_message] under a foreign key makes the next
    sweep raise. *)
Example sweep_raises_on_none_entry :
  cleanup_ghosts (env_at 5)
    (on_message (env_at 1) (only_id "CAR2") (V2XApp_init (env_at 0) "CAR1")) = None.
Proof. vm_compute. reflexivity. Qed.

(** * Further properties of the code *)

(** ** Lane changes made by [update_physics] *)

(** What the rule chain can do to the lane and to the cooldown. *)
Lemma rule_chain_lane_cases (b : bool) (s : Scan) (v : Vehicle) :
  let v' := rule_chain b s v in
  (lane v' = lane v /\ lane_change_cooldown v' = lane_change_cooldown v) \/
  (lane_change_cooldown v <= 0 /\
   ((b = true /\ lane v <> Config.SERVICE_LANE_INDEX /\
     lane v' = (lane v + 1)%Z /\ lane_change_cooldown v' = 1.0) \/
    (b = false /\ (lane v < Config.LANE_COUNT - 1)%Z /\
     lane v' = (lane v + 1)%Z /\ lane_change_cooldown v' = 2.0) \/
    (b = false /\ (Config.LANE_COUNT - 1 <= lane v)%Z /\ (0 < lane v)%Z /\
     lane v' = (lane v - 1)%Z /\ lane_change_cooldown v' = 2.0))).
Proof.
  unfold rule_chain. destruct b.
  - destruct (Z.eqb_spec (lane (set_drowsy_alert true v)) Config.SERVICE_LANE_INDEX)
      as [E | E]; simpl in *.
    + left. split; reflexivity.
    + destruct (Qle_bool (lane_change_cooldown v) 0) eqn:C; simpl.
      * right. apply Qle_bool_iff in C. split; [exact C |]. left. auto.
      * left. split; reflexivity.
  - destruct (yield_rule_fires s v) eqn:Y.
    + assert (C : lane_change_cooldown v <= 0).
      { unfold yield_rule_fires in Y. apply andb_true_iff in Y as [_ Y].
        apply Qle_bool_iff, Y. }
      destruct (Z.ltb_spec (lane v) (Config.LANE_COUNT - 1)) as [L | L]; simpl.
      * right. split; [exact C |]. right. left. auto.
      * destruct (Z.ltb_spec 0 (lane v)) as [P | P]; simpl.
        -- right. split; [exact C |]. right. right. auto.
        -- left. split; reflexivity.
    + left.
      repeat match goal with
             | |- context [if ?c then _ else _] => destruct c
             | |- context [match ?o with Some _ => _ | None => _ end] => destruct o
             end; simpl; split; reflexivity.
Qed.

(** The same for a whole call of [update_physics]. *)
Lemma update_physics_lane_cases (dt : Q) (all_vehicles : list Vehicle)
    (b : bool) (self : Vehicle) :
  let self' := update_physics dt all_vehicles b self in
  (lane self' = lane self /\
   lane_change_cooldown self' = lane_change_cooldown self - dt) \/
  (lane_change_cooldown self - dt <= 0 /\
   ((b = true /\ lane self <> Config.SERVICE_LANE_INDEX /\
     lane self' = (lane self + 1)%Z /\ lane_change_cooldown self' = 1.0) \/
    (b = false /\ (lane self < Config.LANE_COUNT - 1)%Z /\
     lane self' = (lane self + 1)%Z /\ lane_change_cooldown self' = 2.0) \/
    (b = false /\ (Config.LANE_COUNT - 1 <= lane self)%Z /\ (0 < lane self)%Z /\
     lane self' = (lane self - 1)%Z /\ lane_change_cooldown self' = 2.0))).
Proof.
  unfold update_physics.
  destruct (advance_frame dt
              (rule_chain b (scan self all_vehicles) (reset_flags dt self)))
    as (_ & _ & Hl & _ & _ & _ & _ & Hc).
  simpl. rewrite Hl, Hc.
  exact (rule_chain_lane_cases b (scan self all_vehicles) (reset_flags dt self)).
Qed.

(** X1.  [update_physics] keeps a valid lane valid, and never moves the
    vehicle by more than one lane, whatever the inputs. *)
Theorem update_physics_keeps_lane_valid (dt : Q) (all_vehicles : list Vehicle)
    (is_me_drowsy : bool) (self : Vehicle) :
  lane_valid self ->
  let self' := update_physics dt all_vehicles is_me_drowsy self in
  lane_valid self' /\
  (lane self' = lane self \/ lane self' = (lane self + 1)%Z \/
   lane self' = (lane self - 1)%Z).
Proof.
  intros Hvalid self'. unfold lane_valid in *.
  destruct (update_physics_lane_cases dt all_vehicles is_me_drowsy self)
    as [[Hl _] | [_ [(_ & Hne & Hl & _) | [(_ & Hlt & Hl & _) | (_ & Hge & Hpos & Hl & _)]]]];
    fold self' in Hl; rewrite Hl;
    unfold Config.SERVICE_LANE_INDEX, Config.LANE_COUNT in *; split; auto; lia.
Qed.

Lemma update_physics_keeps_lane_valid_witness :
  let self := car "CAR1" 3 500 25 false in
  let amb := car "AMB-1" 3 400 Config.MAX_SPEED_MS true in
  let self' := update_physics (1 # 60) [self; amb] false self in
  lane_valid self' /\
  (lane self' = lane self \/ lane self' = (lane self + 1)%Z \/
   lane self' = (lane self - 1)%Z).
Proof.
  apply (update_physics_keeps_lane_valid (1 # 60)
           [car "CAR1" 3 500 25 false; car "AMB-1" 3 400 Config.MAX_SPEED_MS true]
           false (car "CAR1" 3 500 25 false)).
  unfold lane_valid, Config.LANE_COUNT. simpl. lia.
Defined.

(** X2.  While the cooldown has not run out (it is still positive after
    this call's [dt] is subtracted) [update_physics] changes no lane,
    impaired driver or ambulance behind notwithstanding, and the cooldown
    just loses [dt]. *)
Theorem pending_cooldown_blocks_lane_change (dt : Q) (all_vehicles : list Vehicle)
    (is_me_drowsy : bool) (self : Vehicle) :
  0 < lane_change_cooldown self - dt ->
  let self' := update_physics dt all_vehicles is_me_drowsy self in
  lane self' = lane self /\
  lane_change_cooldown self' = lane_change_cooldown self - dt.
Proof.
  intros Hpending self'.
  destruct (update_physics_lane_cases dt all_vehicles is_me_drowsy self)
    as [H | [Hle _]].
  - exact H.
  - lra.
Qed.

Lemma pending_cooldown_blocks_lane_change_witness :
  let self := set_lane_change_cooldown 1.0 (car "CAR1" 1 100 25 false) in
  let self' := update_physics (1 # 60) [] true self in
  lane self' = lane self /\
  lane_change_cooldown self' = lane_change_cooldown self - (1 # 60).
Proof.
  apply (pending_cooldown_blocks_lane_change (1 # 60) [] true
           (set_lane_change_cooldown 1.0 (car "CAR1" 1 100 25 false))).
  vm_compute. reflexivity.
Defined.

(** X3.  Two calls in a row: if the first one changed the lane, a second
    one whose time step is below one second keeps the lane, whatever the
    traffic and the attention signal then are. *)
Theorem no_two_lane_changes_in_a_row (dt1 dt2 : Q) (all1 all2 : list Vehicle)
    (b1 b2 : bool) (self : Vehicle) :
  dt2 < 1 ->
  let self1 := update_physics dt1 all1 b1 self in
  let self2 := update_physics dt2 all2 b2 self1 in
  lane self1 <> lane self ->
  lane self2 = lane self1.
Proof.
  intros Hdt self1 self2 Hchanged.
  assert (Hrearmed : 1 <= lane_change_cooldown self1).
  { destruct (update_physics_lane_cases dt1 all1 b1 self)
      as [[Hl _] | [_ [(_ & _ & _ & Hc) | [(_ & _ & _ & Hc) | (_ & _ & _ & _ & Hc)]]]];
      fold self1 in Hl || fold self1 in Hc.
    - contradiction.
    - rewrite Hc. vm_compute. discriminate.
    - rewrite Hc. vm_compute. discriminate.
    - rewrite Hc. vm_compute. discriminate. }
  destruct (update_physics_lane_cases dt2 all2 b2 self1) as [[Hl _] | [Hle _]].
  - exact Hl.
  - lra.
Qed.

Lemma no_two_lane_changes_in_a_row_witness :
  let self := car "CAR1" 1 100 25 false in
  let self1 := update_physics (1 # 60) [] true self in
  let self2 := update_physics (1 # 60) [] true self1 in
  lane self1 <> lane self /\ lane self2 = lane self1.
Proof.
  intros self self1 self2.
  assert (Hchanged : lane self1 <> lane self) by (vm_compute; discriminate).
  split; [exact Hchanged |].
  apply (no_two_lane_changes_in_a_row (1 # 60) (1 # 60) [] [] true true self).
  - vm_compute. reflexivity.
  - exact Hchanged.
Defined.

(** ** What the scan loop looks at *)

Lemma scan_step_skips (self : Vehicle) (s : Scan) (other : Vehicle) :
  shares_lane self other = false -> scan_step self s other = s.
Proof.
  unfold shares_lane, scan_step.
  destruct (String.eqb (id other) (id self)); [reflexivity |].
  simpl. intros ->. reflexivity.
Qed.

Lemma scan_loop_filter (self : Vehicle) (l : list Vehicle) (s : Scan) :
  fold_left (scan_step self) l s =
  fold_left (scan_step self) (List.filter (shares_lane self) l) s.
Proof.
  revert s. induction l as [| a l IH]; intros s; simpl; [reflexivity |].
  destruct (shares_lane self a) eqn:E; simpl.
  - apply IH.
  - rewrite (scan_step_skips self s a E). apply IH.
Qed.

(** X4.  Only the other vehicles of the same lane count: [update_physics]
    gives the same result when the vehicle's own entry and the vehicles
    of other lanes are taken out of [all_vehicles]. *)
Theorem update_physics_sees_own_lane_only (dt : Q) (all_vehicles : list Vehicle)
    (is_me_drowsy : bool) (self : Vehicle) :
  update_physics dt all_vehicles is_me_drowsy self =
  update_physics dt (List.filter (shares_lane self) all_vehicles) is_me_drowsy self.
Proof.
  unfold update_physics, scan. rewrite <- scan_loop_filter. reflexivity.
Qed.

(** X5.  An emergency vehicle whose driver is not impaired does not react
    to traffic: the result of [update_physics] is the same as on an empty
    road, the target speed is 1.2 times [MAX_SPEED_MS], the lane is kept
    and neither [braking] nor [warning_vehicle_ahead] is raised. *)
Theorem emergency_vehicle_ignores_traffic (dt : Q) (all_vehicles : list Vehicle)
    (self : Vehicle) :
  is_emergency self = true ->
  let self' := update_physics dt all_vehicles false self in
  self' = update_physics dt [] false self /\
  target_speed self' = Config.MAX_SPEED_MS * 1.2 /\
  lane self' = lane self /\
  braking self' = false /\ warning_vehicle_ahead self' = false.
Proof.
  intros Hemb self'.
  assert (Hrule : forall s, rule_chain false s (reset_flags dt self) =
                    set_target_speed (Config.MAX_SPEED_MS * 1.2) (reset_flags dt self)).
  { intros s. unfold rule_chain, yield_rule_fires. simpl. rewrite Hemb.
    rewrite andb_false_r. reflexivity. }
  unfold self', update_physics. rewrite !Hrule.
  destruct (advance_frame dt
              (set_target_speed (Config.MAX_SPEED_MS * 1.2) (reset_flags dt self)))
    as (_ & _ & Hl & Ht & Hw & Hb & _ & _).
  rewrite Hl, Ht, Hw, Hb. simpl. repeat split; reflexivity.
Qed.

Lemma emergency_vehicle_ignores_traffic_witness :
  let amb := car "AMB-1" 0 100 Config.MAX_SPEED_MS true in
  let slow := car "CAR2" 0 120 0 false in
  let amb' := update_physics (1 # 60) [amb; slow] false amb in
  amb' = update_physics (1 # 60) [] false amb /\
  target_speed amb' = Config.MAX_SPEED_MS * 1.2 /\
  lane amb' = lane amb /\
  braking amb' = false /\ warning_vehicle_ahead amb' = false.
Proof.
  apply (emergency_vehicle_ignores_traffic (1 # 60)
           [car "AMB-1" 0 100 Config.MAX_SPEED_MS true; car "CAR2" 0 120 0 false]
           (car "AMB-1" 0 100 Config.MAX_SPEED_MS true)).
  reflexivity.
Defined.

(** X6.  The two distances of the loop body add up to the track length
    for two different positions, and are both 0 for equal positions,
    wherever the positions are. *)
Theorem loop_distances_complement (self other : Vehicle) :
  (x other == x self ->
   d_ahead self other == 0 /\ d_behind self other == 0) /\
  (~ x other == x self ->
   d_ahead self other + d_behind self other == Config.TOTAL_LENGTH).
Proof.
  unfold d_ahead, d_behind, Config.TOTAL_LENGTH.
  destruct (Qltb (x other - x self) 0) eqn:A;
    destruct (Qltb (x self - x other) 0) eqn:B;
    try apply Qltb_lt in A; try apply Qltb_ge in A;
    try apply Qltb_lt in B; try apply Qltb_ge in B;
    split; intros H; try split; lra.
Qed.

Lemma loop_distances_complement_witness :
  let self := car "CAR1" 1 1900 25 false in
  let other := car "CAR2" 1 100 25 false in
  d_ahead self other + d_behind self other == Config.TOTAL_LENGTH.
Proof.
  apply (proj2 (loop_distances_complement (car "CAR1" 1 1900 25 false)
                  (car "CAR2" 1 100 25 false))).
  intros H. vm_compute in H. discriminate H.
Defined.

(** ** Speed ramp *)

Lemma py_min_below (a b : Q) : a <= b -> py_min a b = a.
Proof.
  intros H. unfold py_min. destruct (Qltb b a) eqn:E; [| reflexivity].
  apply Qltb_lt in E. lra.
Qed.

Lemma py_min_lower (a b c : Q) : c <= a -> c <= b -> c <= py_min a b.
Proof. unfold py_min. destruct (Qltb b a); auto. Qed.

Lemma py_min_left (a b : Q) : py_min a b <= a.
Proof.
  unfold py_min. destruct (Qltb b a) eqn:E.
  - apply Qltb_lt in E. lra.
  - lra.
Qed.

Lemma py_max_right (a b : Q) : b <= py_max a b.
Proof.
  unfold py_max. destruct (Qltb a b) eqn:E.
  - lra.
  - apply Qltb_ge in E. exact E.
Qed.

(** The speed [advance] ends with, spelled out. *)
Lemma advance_speed_value (dt : Q) (v : Vehicle) :
  speed (advance dt v) =
  py_max 0
    (py_min
       (if Qltb (speed v) (target_speed v) then speed v + Config.ACCEL * dt
        else if Qltb (target_speed v) (speed v) then speed v - Config.BRAKE * dt
        else speed v)
       (Config.MAX_SPEED_MS * 1.5)).
Proof.
  unfold advance.
  repeat match goal with |- context [if ?c then _ else _] => destruct c end;
    reflexivity.
Qed.

(** X7.  With [dt >= 0] and a speed within its bounds, one call of
    [update_physics] lowers the speed by at most [BRAKE * dt] and raises
    it by at most [ACCEL * dt]. *)
Theorem speed_changes_at_ramp_rate (dt : Q) (all_vehicles : list Vehicle)
    (is_me_drowsy : bool) (self : Vehicle) :
  0 <= dt -> speed_valid self ->
  let self' := update_physics dt all_vehicles is_me_drowsy self in
  speed self - Config.BRAKE * dt <= speed self' /\
  speed self' <= speed self + Config.ACCEL * dt.
Proof.
  intros Hdt [Hlo Hhi] self'. unfold self', update_physics.
  rewrite advance_speed_value.
  destruct (rule_chain_x_speed is_me_drowsy (scan self all_vehicles)
              (reset_flags dt self)) as [_ Hs].
  rewrite Hs. simpl.
  set (top := Config.MAX_SPEED_MS * 1.5) in *.
  set (t := target_speed _).
  unfold Config.BRAKE, Config.ACCEL.
  destruct (Qltb (speed self) t); [| destruct (Qltb t (speed self))].
  - split.
    + eapply Qle_trans; [| apply py_max_right]. apply py_min_lower; lra.
    + apply py_max_upper; [lra |].
      eapply Qle_trans; [apply py_min_left |]. lra.
  - split.
    + eapply Qle_trans; [| apply py_max_right]. apply py_min_lower; lra.
    + apply py_max_upper; [lra |].
      eapply Qle_trans; [apply py_min_left |]. lra.
  - split.
    + eapply Qle_trans; [| apply py_max_right]. apply py_min_lower; lra.
    + apply py_max_upper; [lra |].
      eapply Qle_trans; [apply py_min_left |]. lra.
Qed.

Lemma speed_changes_at_ramp_rate_witness :
  let self := car "CAR1" 1 0 30 false in
  let self' := update_physics (1 # 60) [self; car "CAR2" 1 50 0 false] false self in
  speed self - Config.BRAKE * (1 # 60) <= speed self' /\
  speed self' <= speed self + Config.ACCEL * (1 # 60).
Proof.
  apply (speed_changes_at_ramp_rate (1 # 60)
           [car "CAR1" 1 0 30 false; car "CAR2" 1 50 0 false] false
           (car "CAR1" 1 0 30 false)).
  - vm_compute. discriminate.
  - split; vm_compute; discriminate.
Defined.

(** ** Controlled stop of an impaired driver *)

(** Braking toward a target of 0 from a speed within bounds. *)
Lemma ramp_to_zero (s d top : Q) :
  0 <= d -> 0 <= s -> s <= top ->
  let r := py_max 0
             (py_min
                (if Qltb s 0 then s + Config.ACCEL * d
                 else if Qltb 0 s then s - Config.BRAKE * d
                 else s)
                top) in
  (s <= Config.BRAKE * d -> r == 0) /\
  (Config.BRAKE * d <= s -> r == s - Config.BRAKE * d).
Proof.
  intros Hd Hs Htop. unfold Config.BRAKE, Config.ACCEL. simpl.
  destruct (Qltb s 0) eqn:Eneg.
  { apply Qltb_lt in Eneg. lra. }
  destruct (Qltb 0 s) eqn:Epos.
  - rewrite py_min_below by lra. unfold py_max.
    destruct (Qltb 0 (s - 25 * d)) eqn:E.
    + apply Qltb_lt in E. split; intros; lra.
    + apply Qltb_ge in E. split; intros; lra.
  - rewrite py_min_below by lra. unfold py_max. rewrite Epos.
    apply Qltb_ge in Epos. split; intros; lra.
Qed.

(** One call in the service lane with the driver impaired. *)
Lemma controlled_stop_step (dt : Q) (all_vehicles : list Vehicle) (self : Vehicle) :
  lane self = Config.SERVICE_LANE_INDEX -> 0 <= dt -> speed_valid self ->
  let self' := update_physics dt all_vehicles true self in
  lane self' = Config.SERVICE_LANE_INDEX /\ speed_valid self' /\
  target_speed self' = 0 /\ braking self' = true /\ drowsy_alert self' = true /\
  (speed self <= Config.BRAKE * dt -> speed self' == 0) /\
  (Config.BRAKE * dt <= speed self -> speed self' == speed self - Config.BRAKE * dt).
Proof.
  intros Hlane Hdt [Hlo Hhi] self'.
  set (v1 := set_braking true (set_target_speed 0
               (set_drowsy_alert true (reset_flags dt self)))).
  assert (Hadv : self' = advance dt v1).
  { unfold self', update_physics, rule_chain. simpl. rewrite Hlane. reflexivity. }
  destruct (advance_frame dt v1) as (_ & _ & Hl & Ht & _ & Hb & Hd & _).
  pose proof (advance_speed_value dt v1) as Hsp.
  pose proof (update_physics_speed_range dt all_vehicles true self) as Hrange.
  pose proof (ramp_to_zero (speed self) dt (Config.MAX_SPEED_MS * 1.5) Hdt Hlo Hhi)
    as Hramp.
  rewrite <- Hadv in Hl, Ht, Hb, Hd, Hsp.
  split; [rewrite Hl; exact Hlane |].
  split; [exact Hrange |].
  split; [rewrite Ht; reflexivity |].
  split; [rewrite Hb; reflexivity |].
  split; [rewrite Hd; reflexivity |].
  rewrite Hsp. exact Hramp.
Qed.

Lemma drive_cons (dt : Q) (all_vehicles : list Vehicle)
    (rest : list (Q * list Vehicle)) (b : bool) (self : Vehicle) :
  drive ((dt, all_vehicles) :: rest) b self =
  drive rest b (update_physics dt all_vehicles b self).
Proof. cbn [drive]. reflexivity. Qed.

(** X8.  An impaired driver in the service lane is brought to a
    standstill: over any run of calls with non-negative time steps the
    vehicle stays in the service lane, and from a speed within bounds it
    ends at [speed - BRAKE * T] while that is non-negative and at 0 from
    then on ([T] the total time of the run); after at least one call
    [braking] and [drowsy_alert] are up and the target speed is 0. *)
Theorem impaired_driver_stops_in_service_lane (ticks : list (Q * list Vehicle))
    (self : Vehicle) :
  lane self = Config.SERVICE_LANE_INDEX -> speed_valid self ->
  (forall tick, tick ∈ ticks -> 0 <= fst tick) ->
  let self' := drive ticks true self in
  lane self' = Config.SERVICE_LANE_INDEX /\
  (speed self <= Config.BRAKE * elapsed ticks -> speed self' == 0) /\
  (Config.BRAKE * elapsed ticks <= speed self ->
   speed self' == speed self - Config.BRAKE * elapsed ticks) /\
  (ticks <> [] ->
   target_speed self' = 0 /\ braking self' = true /\ drowsy_alert self' = true).
Proof.
  revert self. induction ticks as [| [dt all_vehicles] rest IH];
    intros self Hlane Hvalid Hdts self'.
  - unfold self', Config.BRAKE. destruct Hvalid as [Hlo _].
    change (elapsed []) with 0. change (drive [] true self) with self.
    split; [exact Hlane |].
    split; [intros; lra |].
    split; [intros; lra |].
    intros H. contradiction.
  - assert (Hdt : 0 <= dt).
    { apply (Hdts (dt, all_vehicles)), list_elem_of_here. }
    assert (Hrest : forall tick, tick ∈ rest -> 0 <= fst tick).
    { intros tick Hin. apply Hdts, list_elem_of_further, Hin. }
    assert (Helapsed : 0 <= elapsed rest).
    { clear -Hrest. induction rest as [| a rest IH].
      - change (elapsed []) with 0. lra.
      - assert (0 <= fst a) by apply Hrest, list_elem_of_here.
        assert (0 <= elapsed rest).
        { apply IH. intros tick Hin. apply Hrest, list_elem_of_further, Hin. }
        change (elapsed (a :: rest)) with (fst a + elapsed rest). lra. }
    destruct (controlled_stop_step dt all_vehicles self Hlane Hdt Hvalid)
      as (Hl1 & Hv1 & Ht1 & Hb1 & Hd1 & Hzero1 & Hdec1).
    destruct (IH (update_physics dt all_vehicles true self) Hl1 Hv1 Hrest)
      as (Hl & Hzero & Hdec & Hflags).
    unfold self'. rewrite drive_cons. clear self'.
    destruct Hvalid as [Hlo Hhi]. destruct Hv1 as [Hlo1 Hhi1].
    change (elapsed ((dt, all_vehicles) :: rest)) with (dt + elapsed rest).
    set (self1 := update_physics dt all_vehicles true self) in *. clearbody self1.
    set (self' := drive rest true self1) in *.
    set (T := elapsed rest) in *. clearbody T.
    unfold Config.BRAKE in *.
    split; [exact Hl |]. split; [| split].
    + intros Hshort.
      destruct (Qlt_le_dec (speed self) (25 * dt)) as [Hfirst | Hfirst].
      * apply Hzero. assert (H0 : speed self1 == 0) by (apply Hzero1; lra). lra.
      * apply Hzero.
        assert (H0 : speed self1 == speed self - 25 * dt) by (apply Hdec1; lra). lra.
    + intros Hlong.
      assert (H0 : speed self1 == speed self - 25 * dt) by (apply Hdec1; lra).
      assert (H1 : speed self' == speed self1 - 25 * T) by (apply Hdec; lra).
      lra.
    + intros _. destruct rest as [| tick rest'].
      * unfold self'. change (drive [] true self1) with self1. auto.
      * apply Hflags. discriminate.
Qed.

Lemma impaired_driver_stops_in_service_lane_witness :
  let self := car "CAR1" 3 100 30 false in
  let self' := drive [(1 # 2, []); (1 # 2, [self]); (1, [])] true self in
  lane self' = Config.SERVICE_LANE_INDEX /\ speed self' == 0 /\
  braking self' = true.
Proof.
  intros self self'.
  destruct (impaired_driver_stops_in_service_lane
              [(1 # 2, []); (1 # 2, [self]); (1, [])] self)
    as (Hl & Hzero & _ & Hflags).
  - reflexivity.
  - split; vm_compute; discriminate.
  - intros tick Hin. repeat (apply elem_of_cons in Hin as [-> | Hin]);
      try (vm_compute; discriminate). apply elem_of_nil in Hin. contradiction.
  - split; [exact Hl |]. split.
    + apply Hzero. vm_compute. discriminate.
    + apply Hflags. discriminate.
Defined.

(** ** Safe following distance *)

Section NearestAhead.
Variables (self other : Vehicle).
Hypothesis Hid : id other <> id self.
Hypothesis Hlane : lane other = lane self.

(** Every other vehicle of the lane in [l] is [other] or strictly
    farther ahead than [other]. *)
Let nearest_in (l : list Vehicle) : Prop :=
  forall o, o ∈ l -> shares_lane self o = true ->
            o = other \/ d_ahead self other < d_ahead self o.

Let settled (s : Scan) : Prop :=
  dist_to_ahead s = Fin (d_ahead self other) /\
  speed_of_car_ahead s = Some (speed other).

Lemma scan_step_dist_speed (s : Scan) (o : Vehicle) :
  shares_lane self o = true ->
  let s' := scan_step self s o in
  if lt_dist (d_ahead self o) (dist_to_ahead s)
  then dist_to_ahead s' = Fin (d_ahead self o) /\
       speed_of_car_ahead s' = Some (speed o)
  else dist_to_ahead s' = dist_to_ahead s /\
       speed_of_car_ahead s' = speed_of_car_ahead s.
Proof.
  unfold shares_lane, scan_step. intros H.
  apply andb_true_iff in H as [H1 H2].
  apply negb_true_iff in H1. rewrite H1, H2.
  destruct (lt_dist (d_ahead self o) (dist_to_ahead s));
    destruct (is_emergency o && Qltb (d_behind self o) Config.AMBULANCE_DIST);
    simpl; split; reflexivity.
Qed.

Lemma shares_lane_other : shares_lane self other = true.
Proof.
  unfold shares_lane. apply String.eqb_neq in Hid. rewrite Hid.
  apply Z.eqb_eq in Hlane. rewrite Hlane. reflexivity.
Qed.

Lemma scan_loop_stays_settled (l : list Vehicle) (s : Scan) :
  nearest_in l -> settled s -> settled (fold_left (scan_step self) l s).
Proof.
  revert s. induction l as [| a l IH]; intros s Hnear Hs; [exact Hs |].
  cbn [fold_left]. apply IH.
  { intros o Hin. apply Hnear, list_elem_of_further, Hin. }
  destruct Hs as [Hd Hsp].
  destruct (shares_lane self a) eqn:Ea.
  - pose proof (scan_step_dist_speed s a Ea) as Hstep. cbv zeta in Hstep.
    assert (Hno : lt_dist (d_ahead self a) (dist_to_ahead s) = false).
    { rewrite Hd. cbn [lt_dist]. apply Qltb_ge.
      destruct (Hnear a (list_elem_of_here a l) Ea) as [-> | Hfar]; lra. }
    rewrite Hno in Hstep. destruct Hstep as [Hd' Hsp'].
    split; congruence.
  - rewrite (scan_step_skips self s a Ea). split; assumption.
Qed.

Lemma scan_loop_settles (l : list Vehicle) (s : Scan) :
  other ∈ l -> nearest_in l ->
  lt_dist (d_ahead self other) (dist_to_ahead s) = true ->
  settled (fold_left (scan_step self) l s).
Proof.
  revert s. induction l as [| a l IH]; intros s Hin Hnear Hs.
  - apply elem_of_nil in Hin. contradiction.
  - cbn [fold_left].
    assert (Hrest : nearest_in l).
    { intros o Ho. apply Hnear, list_elem_of_further, Ho. }
    assert (Hsettle : forall o, o = other ->
              settled (fold_left (scan_step self) l (scan_step self s o))).
    { intros o ->. apply scan_loop_stays_settled; [exact Hrest |].
      pose proof (scan_step_dist_speed s other shares_lane_other) as Hstep.
      cbv zeta in Hstep. rewrite Hs in Hstep. exact Hstep. }
    apply elem_of_cons in Hin as [Heq | Hin]; [apply Hsettle; congruence |].
    destruct (shares_lane self a) eqn:Ea.
    + destruct (Hnear a (list_elem_of_here a l) Ea) as [Heq | Hfar];
        [apply Hsettle, Heq |].
      apply IH; [exact Hin | exact Hrest |].
      pose proof (scan_step_dist_speed s a Ea) as Hstep. cbv zeta in Hstep.
      destruct (lt_dist (d_ahead self a) (dist_to_ahead s)) eqn:E;
        destruct Hstep as [Hd' _]; rewrite Hd'.
      * cbn [lt_dist]. apply Qltb_lt, Hfar.
      * exact Hs.
    + rewrite (scan_step_skips self s a Ea). apply IH; assumption.
Qed.

(** When [other] is the one nearest vehicle ahead in the lane, the scan
    ends with its distance and its speed. *)
Lemma scan_finds_nearest (all_vehicles : list Vehicle) :
  other ∈ all_vehicles ->
  (forall o, o ∈ all_vehicles -> shares_lane self o = true ->
             o = other \/ d_ahead self other < d_ahead self o) ->
  dist_to_ahead (scan self all_vehicles) = Fin (d_ahead self other) /\
  speed_of_car_ahead (scan self all_vehicles) = Some (speed other).
Proof.
  intros Hin Hnear. apply (scan_loop_settles all_vehicles scan_init Hin Hnear).
  reflexivity.
Qed.
End NearestAhead.

Lemma py_or_value (q : Q) : py_or (Some q) 0 == q.
Proof.
  unfold py_or. destruct (Qeq_bool q 0) eqn:E; [| reflexivity].
  apply Qeq_bool_iff in E. symmetry. exact E.
Qed.

(** X9.  A vehicle that is neither impaired nor an emergency vehicle, for
    which the yield rule does not fire, and whose single nearest vehicle
    ahead in the lane is at a distance of at least [CRITICAL_DIST] and
    below [SAFE_DIST]: [update_physics] sets the target speed to 0.8
    times that vehicle's speed and raises [braking]; it raises
    [warning_vehicle_ahead] exactly when the vehicle is faster than the
    one ahead. *)
Theorem safe_distance_follows_leader (dt : Q) (all_vehicles : list Vehicle)
    (self other : Vehicle) :
  is_emergency self = false ->
  yield_rule_fires (scan self all_vehicles) (reset_flags dt self) = false ->
  other ∈ all_vehicles -> id other <> id self -> lane other = lane self ->
  (forall o, o ∈ all_vehicles -> shares_lane self o = true ->
             o = other \/ d_ahead self other < d_ahead self o) ->
  Config.CRITICAL_DIST <= d_ahead self other ->
  d_ahead self other < Config.SAFE_DIST ->
  let self' := update_physics dt all_vehicles false self in
  target_speed self' = speed other * 0.8 /\
  braking self' = true /\
  (warning_vehicle_ahead self' = true <-> speed other < speed self).
Proof.
  intros Hemb Hyield Hin Hid Hlane Hnear Hcrit Hsafe self'.
  destruct (scan_finds_nearest self other Hid Hlane all_vehicles Hin Hnear)
    as [Hdist Hspeed].
  assert (Hrule :
    rule_chain false (scan self all_vehicles) (reset_flags dt self) =
    let v := set_braking true
               (set_target_speed (speed other * 0.8) (reset_flags dt self)) in
    if Qltb (py_or (Some (speed other)) 0) (speed self)
    then set_warning_vehicle_ahead true v else v).
  { unfold rule_chain. rewrite Hyield, Hdist, Hspeed.
    cbn [is_emergency reset_flags set_lane_change_cooldown set_braking
         set_warning_vehicle_ahead dist_lt].
    rewrite Hemb.
    apply Qltb_ge in Hcrit. rewrite Hcrit.
    apply Qltb_lt in Hsafe. rewrite Hsafe. reflexivity. }
  unfold self', update_physics.
  destruct (advance_frame dt
              (rule_chain false (scan self all_vehicles) (reset_flags dt self)))
    as (_ & _ & _ & Ht & Hw & Hb & _ & _).
  rewrite Ht, Hw, Hb, Hrule. cbv zeta.
  destruct (Qltb (py_or (Some (speed other)) 0) (speed self)) eqn:E.
  - apply Qltb_lt in E. rewrite py_or_value in E.
    split; [reflexivity |]. split; [reflexivity |]. split; auto.
  - apply Qltb_ge in E. rewrite py_or_value in E.
    split; [reflexivity |]. split; [reflexivity |].
    split; [discriminate | intros; lra].
Qed.

Lemma safe_distance_follows_leader_witness :
  let self := car "CAR1" 1 0 30 false in
  let other := car "CAR2" 1 150 20 false in
  let far := car "CAR3" 1 400 5 false in
  let self' := update_physics (1 # 60) [far; self; other] false self in
  target_speed self' = speed other * 0.8 /\
  braking self' = true /\
  (warning_vehicle_ahead self' = true <-> speed other < speed self).
Proof.
  intros self other far.
  apply (safe_distance_follows_leader (1 # 60) [far; self; other] self other).
  - reflexivity.
  - reflexivity.
  - apply elem_of_cons. right. apply elem_of_cons. right. apply list_elem_of_here.
  - discriminate.
  - reflexivity.
  - intros o Hin Hshare.
    apply elem_of_cons in Hin as [-> | Hin]; [right; vm_compute; reflexivity |].
    apply elem_of_cons in Hin as [-> | Hin]; [discriminate Hshare |].
    apply elem_of_cons in Hin as [-> | Hin]; [left; reflexivity |].
    apply elem_of_nil in Hin. contradiction.
  - vm_compute. discriminate.
  - vm_compute. reflexivity.
Defined.

(** ** What [update_physics] leaves alone *)

Lemma rule_chain_untouched (b : bool) (s : Scan) (v : Vehicle) :
  let v' := rule_chain b s v in
  id v' = id v /\ is_emergency v' = is_emergency v /\ color v' = color v /\
  user_target_speed v' = user_target_speed v /\
  visual_lane v' = visual_lane v /\ last_update v' = last_update v.
Proof.
  unfold rule_chain.
  repeat match goal with
         | |- context [if ?c then _ else _] => destruct c eqn:?
         | |- context [match ?o with Some _ => _ | None => _ end] => destruct o
         end; cbn; repeat split; try reflexivity; assumption.
Qed.

Lemma advance_untouched (dt : Q) (v : Vehicle) :
  let v' := advance dt v in
  color v' = color v /\ user_target_speed v' = user_target_speed v /\
  visual_lane v' = visual_lane v /\ last_update v' = last_update v.
Proof.
  unfold advance.
  repeat match goal with |- context [if ?c then _ else _] => destruct c end;
    cbn; repeat split; reflexivity.
Qed.

(** X10.  [update_physics] never writes the id, the emergency flag, the
    colour, the user's target speed, the animated lane or [last_update]:
    in particular the time stamp of a vehicle the agent drives itself is
    never refreshed by driving it. *)
Theorem update_physics_untouched_fields (dt : Q) (all_vehicles : list Vehicle)
    (is_me_drowsy : bool) (self : Vehicle) :
  let self' := update_physics dt all_vehicles is_me_drowsy self in
  id self' = id self /\ is_emergency self' = is_emergency self /\
  color self' = color self /\
  user_target_speed self' = user_target_speed self /\
  visual_lane self' = visual_lane self /\ last_update self' = last_update self.
Proof.
  unfold update_physics. cbv zeta.
  set (s := scan self all_vehicles).
  destruct (advance_frame dt (rule_chain is_me_drowsy s (reset_flags dt self)))
    as (Hi & He & _).
  destruct (advance_untouched dt (rule_chain is_me_drowsy s (reset_flags dt self)))
    as (Hc & Hu & Hv & Hl).
  destruct (rule_chain_untouched is_me_drowsy s (reset_flags dt self))
    as (Hi' & He' & Hc' & Hu' & Hv' & Hl').
  rewrite Hi, He, Hc, Hu, Hv, Hl, Hi', He', Hc', Hu', Hv', Hl'.
  repeat split; reflexivity.
Qed.

(** ** Construction *)

(** X11.  With draws inside the ranges [random.randint] is called with,
    a freshly constructed vehicle, car or emergency vehicle, has a valid
    lane, a position on the track, a speed within the bounds
    [update_physics] maintains, no cooldown pending and all three flags
    down. *)
Theorem Vehicle_init_is_valid (env : Env) (uid : string) (emb : bool) :
  draws_in_range env ->
  let v := Vehicle_init env uid emb in
  lane_valid v /\ on_track v /\ speed_valid v /\
  lane_change_cooldown v = 0 /\
  braking v = false /\ warning_vehicle_ahead v = false /\ drowsy_alert v = false.
Proof.
  intros (Hx & Hs & _ & _) v. unfold v, lane_valid, on_track, speed_valid.
  unfold Vehicle_init, Config.LANE_COUNT, Config.TOTAL_LENGTH. cbn.
  destruct emb; cbn.
  - repeat split; try reflexivity; try lia; vm_compute; discriminate.
  - assert (H0 : inject_Z 0 <= inject_Z (rand_x env)) by (rewrite <- Zle_Qle; lia).
    assert (H1 : inject_Z (rand_x env) <= inject_Z 1500) by (rewrite <- Zle_Qle; lia).
    assert (H2 : inject_Z 20 <= inject_Z (rand_speed env)) by (rewrite <- Zle_Qle; lia).
    assert (H3 : inject_Z (rand_speed env) <= inject_Z 30) by (rewrite <- Zle_Qle; lia).
    assert (H4 : 30 <= Config.MAX_SPEED_MS * 1.5) by (vm_compute; discriminate).
    change (inject_Z 0) with 0 in H0. change (inject_Z 1500) with 1500 in H1.
    change (inject_Z 20) with 20 in H2. change (inject_Z 30) with 30 in H3.
    repeat split; try reflexivity; try lia; lra.
Qed.

Lemma Vehicle_init_is_valid_witness :
  let v := Vehicle_init (env_at 0) "CAR1" false in
  lane_valid v /\ on_track v /\ speed_valid v /\
  lane_change_cooldown v = 0 /\
  braking v = false /\ warning_vehicle_ahead v = false /\ drowsy_alert v = false.
Proof.
  apply (Vehicle_init_is_valid (env_at 0) "CAR1" false).
  unfold draws_in_range. cbn. lia.
Defined.

(** ** [update_visuals] *)



(** With a long time step the animated lane overshoots: half a lane
    short, one second later it is one and a half lanes beyond. *)
Example update_visuals_overshoots :
  let self := set_visual_lane 0.5 (car "CAR1" 1 100 25 false) in
  visual_lane (update_visuals 1 self) == 2.5.
Proof. vm_compute. reflexivity. Qed.

(** ** User commands *)

(** X13.  [change_lane] moves the vehicle by [d] lanes when that lands on
    a valid lane and does nothing otherwise; either way a valid lane
    stays valid and no other field changes. *)
Theorem change_lane_clamps (d : Z) (my_vehicle : Vehicle) :
  let v' := change_lane d my_vehicle in
  let wanted := (lane my_vehicle + d)%Z in
  ((0 <= wanted < Config.LANE_COUNT)%Z -> v' = set_lane wanted my_vehicle) /\
  (~ (0 <= wanted < Config.LANE_COUNT)%Z -> v' = my_vehicle) /\
  (lane_valid my_vehicle -> lane_valid v').
Proof.
  cbv zeta. unfold change_lane, lane_valid, Config.LANE_COUNT.
  destruct (Z.leb_spec 0 (lane my_vehicle + d)) as [H0 | H0];
    destruct (Z.ltb_spec (lane my_vehicle + d) 4) as [H1 | H1];
    cbn [andb lane set_lane]; repeat split; intros; try reflexivity; try lia.
Qed.

Lemma change_lane_clamps_witness :
  let my_vehicle := car "CAR1" 3 100 25 false in
  change_lane 1 my_vehicle = my_vehicle /\ lane_valid (change_lane (-1) my_vehicle).
Proof.
  intros my_vehicle. split.
  - apply (proj1 (proj2 (change_lane_clamps 1 my_vehicle))).
    unfold Config.LANE_COUNT. cbn. lia.
  - apply (proj2 (proj2 (change_lane_clamps (-1) my_vehicle))).
    unfold lane_valid, Config.LANE_COUNT. cbn. lia.
Defined.

(** X14.  After [chg_speed] the user's target speed lies in
    [[0, MAX_SPEED_MS]] whatever it was and whatever [d] is; it is the old
    value plus [d] when that lies in the interval; nothing else
    changes. *)
Theorem chg_speed_clamps (d : Q) (my_vehicle : Vehicle) :
  let v' := chg_speed d my_vehicle in
  let wanted := user_target_speed my_vehicle + d in
  0 <= user_target_speed v' /\ user_target_speed v' <= Config.MAX_SPEED_MS /\
  (0 <= wanted -> wanted <= Config.MAX_SPEED_MS ->
   user_target_speed v' == wanted) /\
  v' = set_user_target_speed (user_target_speed v') my_vehicle.
Proof.
  cbv zeta. unfold chg_speed.
  cbn [user_target_speed set_user_target_speed].
  set (w := user_target_speed my_vehicle + d).
  assert (Hmax : 0 <= Config.MAX_SPEED_MS) by (vm_compute; discriminate).
  split; [apply py_max_lower |].
  split; [apply py_max_upper; [exact Hmax | apply py_min_upper] |].
  split; [| reflexivity].
  intros H0 H1. rewrite py_min_below by exact H1.
  unfold py_max. destruct (Qltb 0 w) eqn:E; [reflexivity |].
  apply Qltb_ge in E. lra.
Qed.

Lemma chg_speed_clamps_witness :
  let my_vehicle := car "CAR1" 1 100 25 false in
  user_target_speed (chg_speed 5 my_vehicle) == 30.
Proof.
  intros my_vehicle.
  destruct (chg_speed_clamps 5 my_vehicle) as (_ & _ & H & _).
  rewrite H; vm_compute; try reflexivity; discriminate.
Defined.

(** ** The attention signal *)

Module DetectorFacts.
Import UniversalDetector.

(** While no face is seen, the start of the streak is kept and the flag
    can only go up. *)
Lemma loop_streak (t0 : Q) (frames : list (Q * Frame)) (b : bool) :
  (forall f, f ∈ frames -> no_face_seen f = true) ->
  loop frames {| drowsy := b; no_face_start_time := Some t0 |} =
  {| drowsy := b || existsb (fun f => faceless f &&
                                      Qltb Config.DROWSY_TIME_THRESHOLD (fst f - t0))
                            frames;
     no_face_start_time := Some t0 |}.
Proof.
  revert b. induction frames as [| [now fr] frames IH]; intros b Hnone.
  - cbn. rewrite orb_false_r. reflexivity.
  - assert (Hrest : forall f, f ∈ frames -> no_face_seen f = true).
    { intros f Hin. apply Hnone, list_elem_of_further, Hin. }
    pose proof (Hnone (now, fr) (list_elem_of_here _ _)) as Hfr.
    unfold loop in *. cbn [fold_left existsb fst snd].
    destruct fr as [| [| n]]; [| | discriminate Hfr].
    + cbn [loop_body faceless snd andb orb]. apply IH, Hrest.
    + cbn [loop_body faceless snd andb fst no_face_start_time].
      destruct (Qltb Config.DROWSY_TIME_THRESHOLD (now - t0)).
      * rewrite (IH true Hrest). rewrite orb_true_r. reflexivity.
      * cbn [drowsy]. rewrite (IH b Hrest). reflexivity.
Qed.

End DetectorFacts.

(** X15.  The detector's debounce.  A pass that sees a face clears the
    flag and the timer, whatever the state.  From a cleared state, a
    streak that starts with a pass at [t0] finding no face and goes on
    without any face seen ends with the timer at [t0] and with [drowsy]
    raised exactly when some later pass of the streak found no face more
    than [DROWSY_TIME_THRESHOLD] after [t0]. *)
Theorem detector_debounce :
  (forall (now : Q) (n : nat) (st : UniversalDetector.t),
     UniversalDetector.loop_body now (UniversalDetector.Faces (S n)) st =
     UniversalDetector.init) /\
  (forall (t0 : Q) (frames : list (Q * UniversalDetector.Frame)),
     (forall f, f ∈ frames -> UniversalDetector.no_face_seen f = true) ->
     UniversalDetector.loop ((t0, UniversalDetector.Faces 0) :: frames)
       UniversalDetector.init =
     {| UniversalDetector.drowsy :=
          existsb (fun f => UniversalDetector.faceless f &&
                            Qltb Config.DROWSY_TIME_THRESHOLD (fst f - t0)) frames;
        UniversalDetector.no_face_start_time := Some t0 |}).
Proof.
  split.
  - intros now n st. reflexivity.
  - intros t0 frames Hnone.
    exact (DetectorFacts.loop_streak t0 frames false Hnone).
Qed.

Lemma detector_debounce_witness :
  UniversalDetector.drowsy
    (UniversalDetector.loop
       [(10, UniversalDetector.Faces 0); (11, UniversalDetector.Faces 0);
        (11.5, UniversalDetector.ReadFailed); (12.5, UniversalDetector.Faces 0)]
       UniversalDetector.init) = true.
Proof.
  rewrite (proj2 detector_debounce 10
             [(11, UniversalDetector.Faces 0);
              (11.5, UniversalDetector.ReadFailed);
              (12.5, UniversalDetector.Faces 0)]).
  - vm_compute. reflexivity.
  - intros f Hin. repeat (apply elem_of_cons in Hin as [-> | Hin]);
      try reflexivity. apply elem_of_nil in Hin. contradiction.
Defined.

(** ** More on [from_json] and [on_message] *)



(** The sender a message names, if it gets that far. *)
Lemma on_message_other_key (env : Env) (p : Payload) (app : V2XApp) (vid : string) :
  (forall d, json_loads p = Some d -> getitem d key_id <> Some vid) ->
  vehicles (on_message env p app) !! vid = vehicles app !! vid.
Proof.
  intros Hother. unfold on_message.
  destruct (json_loads p) as [d |]; [| reflexivity].
  specialize (Hother d eq_refl).
  destruct (getitem d key_id) as [uid |]; [| reflexivity].
  assert (Hne : uid <> vid) by congruence.
  destruct (negb (String.eqb uid (my_vehicle_id app))); [| reflexivity].
  destruct (String.eqb uid "AMB-1" && i_own_ambulance app); [reflexivity |].
  destruct (vehicles app !! uid) as [[v |] |]; cbn [vehicles set_vehicles];
    try reflexivity; apply lookup_insert_ne, Hne.
Qed.

Lemma on_message_keeps_keys (env : Env) (p : Payload) (app : V2XApp) (vid : string) :
  is_Some (vehicles app !! vid) ->
  is_Some (vehicles (on_message env p app) !! vid).
Proof.
  intros Hin. unfold on_message.
  destruct (json_loads p) as [d |]; [| exact Hin].
  destruct (getitem d key_id) as [uid |]; [| exact Hin].
  destruct (negb (String.eqb uid (my_vehicle_id app))); [| exact Hin].
  destruct (String.eqb uid "AMB-1" && i_own_ambulance app); [exact Hin |].
  destruct (vehicles app !! uid) as [[v |] |] eqn:Hu; cbn [vehicles set_vehicles];
    try exact Hin.
  - destruct (decide (uid = vid)) as [-> | Hne].
    + rewrite lookup_insert_eq. eauto.
    + rewrite lookup_insert_ne by exact Hne. exact Hin.
  - destruct (decide (uid = vid)) as [-> | Hne].
    + rewrite lookup_insert_eq. eauto.
    + rewrite lookup_insert_ne by exact Hne. exact Hin.
Qed.

(** X17.  A message never removes an entry, and it leaves every entry
    alone except the one stored under the id it carries. *)
Theorem on_message_touches_sender_only (env : Env) (p : Payload) (app : V2XApp) :
  let app' := on_message env p app in
  (forall vid, is_Some (vehicles app !! vid) -> is_Some (vehicles app' !! vid)) /\
  (forall vid,
     (forall d, json_loads p = Some d -> getitem d key_id <> Some vid) ->
     vehicles app' !! vid = vehicles app !! vid).
Proof.
  split.
  - intros vid. apply on_message_keeps_keys.
  - intros vid. apply on_message_other_key.
Qed.

Lemma on_message_touches_sender_only_witness :
  let app := on_message (env_at 1) (to_json (car "CAR2" 1 50 10 false))
               (V2XApp_init (env_at 0) "CAR1") in
  let app' := on_message (env_at 2) (to_json (car "CAR3" 2 80 20 false)) app in
  vehicles app' !! "CAR2" = vehicles app !! "CAR2".
Proof.
  intros app app'.
  apply (proj2 (on_message_touches_sender_only (env_at 2)
                  (to_json (car "CAR3" 2 80 20 false)) app)).
  intros d [= <-]. cbn. discriminate.
Defined.

Lemma overwrite_fields_idempotent (env : Env) (d : Json) (v : Vehicle) :
  overwrite_fields env d (overwrite_fields env d v) = overwrite_fields env d v.
Proof.
  unfold overwrite_fields.
  destruct (getitem d key_x); [| reflexivity].
  destruct (getitem d key_lane); [| reflexivity].
  destruct (getitem d key_spd); [| reflexivity].
  destruct (getitem d key_emb); reflexivity.
Qed.

Lemma overwrite_fields_after_from_json (env : Env) (p : Payload) (d : Json)
    (v : Vehicle) :
  json_loads p = Some d -> from_json env p = Some v ->
  overwrite_fields env d v = v.
Proof.
  intros Hd Hv. unfold from_json in Hv. rewrite Hd in Hv.
  cbn [mbind option_bind] in Hv. unfold overwrite_fields.
  destruct (getitem d key_id); [| discriminate Hv].
  destruct (getitem d key_emb); [| discriminate Hv].
  destruct (getitem d key_lane); [| discriminate Hv].
  destruct (getitem d key_x); [| discriminate Hv].
  destruct (getitem d key_spd); [| discriminate Hv].
  destruct (getitem d key_col); [| discriminate Hv].
  cbn in Hv. injection Hv as <-. reflexivity.
Qed.

(** X18.  Delivering the same message twice in the same instant is the
    same as delivering it once, for every payload and every store. *)
Theorem on_message_idempotent (env : Env) (p : Payload) (app : V2XApp) :
  on_message env p (on_message env p app) = on_message env p app.
Proof.
  destruct (on_message_identity env p app) as [Hid Hown].
  unfold on_message at 1. rewrite Hid, Hown.
  unfold on_message.
  destruct (json_loads p) as [d |] eqn:Hd; [| reflexivity].
  destruct (getitem d key_id) as [uid |] eqn:Hu; [| reflexivity].
  destruct (negb (String.eqb uid (my_vehicle_id app))); [| reflexivity].
  destruct (String.eqb uid "AMB-1" && i_own_ambulance app); [reflexivity |].
  destruct (vehicles app !! uid) as [[v |] |] eqn:Hlook;
    cbn [vehicles set_vehicles].
  - rewrite lookup_insert_eq. unfold set_vehicles. cbn.
    rewrite overwrite_fields_idempotent, insert_insert_eq. reflexivity.
  - rewrite Hlook. reflexivity.
  - rewrite lookup_insert_eq.
    destruct (from_json env p) as [v |] eqn:Hv.
    + unfold set_vehicles. cbn.
      rewrite (overwrite_fields_after_from_json env p d v Hd Hv), insert_insert_eq.
      reflexivity.
    + reflexivity.
Qed.

(** X19.  Receiving what a peer published.  For a vehicle [v] of another
    id (and not a locally owned ["AMB-1"]) whose key does not hold
    [None], after [on_message] on [to_json v] the store holds under
    [id v] a vehicle with the lane, position, speed, emergency flag,
    drowsy alert and braking flag of [v] and the time of receipt as
    [last_update].  A new replica also takes [v]'s id and colour and
    starts with the animated lane at the lane; an existing replica keeps
    its id, colour and animated lane. *)
Theorem on_message_receives_published_state (env : Env) (v : Vehicle) (app : V2XApp) :
  id v <> my_vehicle_id app ->
  ~ (id v = "AMB-1" /\ i_own_ambulance app = true) ->
  vehicles app !! id v <> Some None ->
  exists r,
    vehicles (on_message env (to_json v) app) !! id v = Some (Some r) /\
    lane r = lane v /\ x r = x v /\ speed r = speed v /\
    is_emergency r = is_emergency v /\ drowsy_alert r = drowsy_alert v /\
    braking r = braking v /\ last_update r = time_time env /\
    (vehicles app !! id v = None ->
     id r = id v /\ color r = color v /\ visual_lane r = inject_Z (lane v)) /\
    (forall old, vehicles app !! id v = Some (Some old) ->
     id r = id old /\ color r = color old /\ visual_lane r = visual_lane old).
Proof.
  intros Hme Hguard Hnone.
  unfold on_message, to_json, json_dumps.
  cbn [json_loads getitem key_id].
  apply String.eqb_neq in Hme. rewrite Hme. cbn [negb].
  assert (Hg : String.eqb (id v) "AMB-1" && i_own_ambulance app = false).
  { destruct (String.eqb_spec (id v) "AMB-1") as [E | E]; [| reflexivity].
    destruct (i_own_ambulance app); [| reflexivity].
    exfalso. apply Hguard. split; [exact E | reflexivity]. }
  rewrite Hg.
  destruct (vehicles app !! id v) as [[old |] |] eqn:Hlook.
  - eexists. cbn [vehicles set_vehicles]. rewrite lookup_insert_eq.
    split; [reflexivity |].
    unfold overwrite_fields, get, getitem. cbn.
    do 7 (split; [reflexivity |]). split.
    + intros H. discriminate H.
    + intros old' [= <-]. repeat split; reflexivity.
  - contradiction.
  - eexists. cbn [vehicles set_vehicles]. rewrite lookup_insert_eq.
    split; [reflexivity |]. cbn.
    do 7 (split; [reflexivity |]). split.
    + intros _. repeat split; reflexivity.
    + intros old' H. discriminate H.
Qed.

Lemma on_message_receives_published_state_witness :
  let app := V2XApp_init (env_at 0) "CAR1" in
  let v := car "CAR2" 2 50 10 false in
  exists r,
    vehicles (on_message (env_at 1) (to_json v) app) !! "CAR2" = Some (Some r) /\
    lane r = 2%Z /\ x r = 50.
Proof.
  intros app v.
  destruct (on_message_receives_published_state (env_at 1) v app)
    as (r & Hr & Hl & Hx & _).
  - discriminate.
  - intros [H _]. discriminate H.
  - vm_compute. discriminate.
  - exists r. split; [exact Hr |]. split; assumption.
Defined.

(** ** More on [cleanup_ghosts] and ownership *)

Lemma ghost_ids_raises (my_id : string) (now : Q)
    (items : list (string * option Vehicle)) (k : string) :
  (k, None) ∈ items -> k <> my_id -> ghost_ids my_id now items = None.
Proof.
  intros Hin Hne. induction items as [| [a e] items IH].
  - apply elem_of_nil in Hin. contradiction.
  - cbn [ghost_ids]. apply elem_of_cons in Hin as [[= <- <-] | Hin].
    + apply String.eqb_neq in Hne. rewrite Hne. reflexivity.
    + rewrite (IH Hin).
      destruct (negb (String.eqb a my_id)); [| reflexivity].
      destruct e; reflexivity.
Qed.

(** X20.  [cleanup_ghosts] raises exactly when some key other than the
    local one holds [None], whatever the clock reads; otherwise it
    returns. *)
Theorem cleanup_ghosts_raises_exactly (env : Env) (app : V2XApp) :
  cleanup_ghosts env app = None <->
  exists vid, vid <> my_vehicle_id app /\ vehicles app !! vid = Some None.
Proof.
  unfold cleanup_ghosts. split.
  - intros Hraise.
    destruct (ghost_ids (my_vehicle_id app) (time_time env)
                (map_to_list (vehicles app))) as [g |] eqn:Hg;
      [discriminate Hraise |].
    clear Hraise.
    assert (Hex : exists k, k <> my_vehicle_id app /\
                            (k, None) ∈ map_to_list (vehicles app)).
    { revert Hg. generalize (map_to_list (vehicles app)).
      induction l as [| [a e] l IH]; cbn [ghost_ids]; [discriminate |].
      destruct (String.eqb_spec a (my_vehicle_id app)) as [-> | Hne]; cbn [negb].
      - intros Hg. destruct (IH Hg) as (k & Hk & Hin).
        exists k. split; [exact Hk | apply list_elem_of_further, Hin].
      - destruct e as [v |].
        + destruct (ghost_ids (my_vehicle_id app) (time_time env) l) eqn:Hl;
            [discriminate |].
          intros _. destruct (IH eq_refl) as (k & Hk & Hin).
          exists k. split; [exact Hk | apply list_elem_of_further, Hin].
        + intros _. exists a. split; [exact Hne | apply list_elem_of_here]. }
    destruct Hex as (k & Hk & Hin). exists k. split; [exact Hk |].
    apply elem_of_map_to_list, Hin.
  - intros (vid & Hne & Hnone).
    rewrite (ghost_ids_raises _ _ _ vid); [reflexivity | | exact Hne].
    apply elem_of_map_to_list, Hnone.
Qed.

Lemma cleanup_ghosts_raises_exactly_witness :
  cleanup_ghosts (env_at 9)
    (on_message (env_at 1) (only_id "CAR2") (V2XApp_init (env_at 0) "CAR1")) = None.
Proof.
  apply (proj2 (cleanup_ghosts_raises_exactly (env_at 9)
                  (on_message (env_at 1) (only_id "CAR2")
                     (V2XApp_init (env_at 0) "CAR1")))).
  exists "CAR2". split; [discriminate | vm_compute; reflexivity].
Defined.

(** What a sweep that returns leaves in place. *)
Lemma cleanup_ghosts_spares (env : Env) (app app' : V2XApp) :
  cleanup_ghosts env app = Some app' ->
  my_vehicle_id app' = my_vehicle_id app /\
  i_own_ambulance app' = i_own_ambulance app /\
  vehicles app' !! my_vehicle_id app = vehicles app !! my_vehicle_id app /\
  (i_own_ambulance app = true ->
   vehicles app' !! "AMB-1" = vehicles app !! "AMB-1").
Proof.
  unfold cleanup_ghosts.
  destruct (ghost_ids (my_vehicle_id app) (time_time env)
              (map_to_list (vehicles app))) as [g |] eqn:Hg; [| discriminate].
  cbn [mbind option_bind]. intros [= <-]. cbn [my_vehicle_id i_own_ambulance vehicles set_vehicles].
  split; [reflexivity |]. split; [reflexivity |]. split.
  - apply delete_all_other. intros Hin.
    assert (Hg' : my_vehicle_id app ∈ g).
    { destruct (i_own_ambulance app && bool_decide ("AMB-1" ∈ g));
        [apply (list_remove_first_subset "AMB-1"), Hin | exact Hin]. }
    destruct (ghost_ids_sound _ _ _ g _ Hg Hg') as [Hne _]. apply Hne. reflexivity.
  - intros Hown. apply delete_all_other. rewrite Hown. cbn [andb].
    destruct (bool_decide_reflect ("AMB-1" ∈ g)) as [_ | Hout]; [| exact Hout].
    apply list_remove_first_gone.
    apply (sublist_NoDup _ ((map_to_list (vehicles app)).*1)).
    + apply NoDup_fst_map_to_list.
    + apply (ghost_ids_sublist (my_vehicle_id app) (time_time env)), Hg.
Qed.

(** X21.  Two facts hold of the store the constructor builds and are
    kept by calling the ambulance, by every inbound message and by every
    sweep that returns: the local vehicle is in the store, and an agent
    that owns the ambulance has it in its store. *)
Theorem anchors_are_kept :
  (forall env uid,
     local_vehicle_present (V2XApp_init env uid) /\
     owned_ambulance_present (V2XApp_init env uid)) /\
  (forall env app,
     local_vehicle_present app /\ owned_ambulance_present app ->
     local_vehicle_present (spawn_ambulance_click env app) /\
     owned_ambulance_present (spawn_ambulance_click env app)) /\
  (forall env p app,
     local_vehicle_present app /\ owned_ambulance_present app ->
     local_vehicle_present (on_message env p app) /\
     owned_ambulance_present (on_message env p app)) /\
  (forall env app app',
     cleanup_ghosts env app = Some app' ->
     local_vehicle_present app /\ owned_ambulance_present app ->
     local_vehicle_present app' /\ owned_ambulance_present app').
Proof.
  unfold local_vehicle_present, owned_ambulance_present.
  split; [| split; [| split]].
  - intros env uid. split.
    + eexists. cbn [V2XApp_init vehicles my_vehicle_id].
      apply lookup_singleton_eq.
    + cbn. discriminate.
  - intros env app [[v Hv] Hamb]. unfold spawn_ambulance_click.
    destruct (vehicles app !! "AMB-1") as [e |] eqn:Hlook.
    + split; [exists v; exact Hv |].
      intros Hmine. rewrite Hlook. exact (Hamb Hmine).
    + cbn [vehicles my_vehicle_id i_own_ambulance]. split.
      * exists v. rewrite lookup_insert_ne; [exact Hv |].
        intros E. rewrite <- E in Hv. congruence.
      * intros _. eexists. apply lookup_insert_eq.
  - intros env p app [[v Hv] Hamb].
    destruct (on_message_identity env p app) as [Hid Hown].
    rewrite Hid, Hown. split.
    + exists v. rewrite on_message_guarded; [exact Hv | left; reflexivity].
    + intros Hmine. destruct (Hamb Hmine) as [a Ha]. exists a.
      rewrite on_message_guarded; [exact Ha |].
      right. split; [reflexivity | exact Hmine].
  - intros env app app' Hrun [[v Hv] Hamb].
    destruct (cleanup_ghosts_spares env app app' Hrun) as (Hid & Hown & Hme & Hkeep).
    rewrite Hid, Hown. split.
    + exists v. rewrite Hme. exact Hv.
    + intros Hmine. destruct (Hamb Hmine) as [a Ha]. exists a.
      rewrite (Hkeep Hmine). exact Ha.
Qed.

Lemma anchors_are_kept_witness :
  let app := on_message (env_at 2) (to_json (car "AMB-1" 2 77 5 true))
               (spawn_ambulance_click (env_at 1) (V2XApp_init (env_at 0) "CAR1")) in
  local_vehicle_present app /\ owned_ambulance_present app.
Proof.
  destruct anchors_are_kept as (Hinit & Hspawn & Hmsg & _).
  apply Hmsg, Hspawn, Hinit.
Defined.

Lemma on_message_stores_sender (env : Env) (v : Vehicle) (app : V2XApp) :
  id v <> my_vehicle_id app -> i_own_ambulance app = false ->
  is_Some (vehicles (on_message env (to_json v) app) !! id v).
Proof.
  intros Hme Hown. unfold on_message, to_json, json_dumps.
  cbn [json_loads getitem key_id].
  apply String.eqb_neq in Hme. rewrite Hme, Hown, andb_false_r. cbn [negb].
  destruct (vehicles app !! id v) as [[old |] |] eqn:Hlook;
    cbn [vehicles set_vehicles].
  - rewrite lookup_insert_eq. eauto.
  - rewrite Hlook. eauto.
  - rewrite lookup_insert_eq. eauto.
Qed.

(** X22.  The ambulance slot is claimed at most once.  A second click
    changes nothing; and when a peer's ["AMB-1"] has been received first,
    the click changes nothing either, so the agent never comes to own an
    ambulance another agent announced. *)
Theorem ambulance_is_claimed_once :
  (forall env1 env2 app,
     spawn_ambulance_click env2 (spawn_ambulance_click env1 app) =
     spawn_ambulance_click env1 app) /\
  (forall env1 env2 v app,
     id v = "AMB-1" -> my_vehicle_id app <> "AMB-1" ->
     i_own_ambulance app = false ->
     let app1 := on_message env1 (to_json v) app in
     spawn_ambulance_click env2 app1 = app1 /\ i_own_ambulance app1 = false).
Proof.
  split.
  - intros env1 env2 app. unfold spawn_ambulance_click at 2 3.
    destruct (vehicles app !! "AMB-1") as [e |] eqn:Hlook.
    + unfold spawn_ambulance_click. rewrite Hlook. reflexivity.
    + unfold spawn_ambulance_click. cbn [vehicles].
      rewrite lookup_insert_eq. reflexivity.
  - intros env1 env2 v app Hv Hme Hown app1.
    assert (Hin : is_Some (vehicles app1 !! "AMB-1")).
    { rewrite <- Hv. apply on_message_stores_sender; [congruence | exact Hown]. }
    destruct (on_message_identity env1 (to_json v) app) as [_ Hown1].
    fold app1 in Hown1. split; [| congruence].
    unfold spawn_ambulance_click. destruct Hin as [e ->]. reflexivity.
Qed.

Lemma ambulance_is_claimed_once_witness :
  let app := V2XApp_init (env_at 0) "CAR1" in
  let app1 := on_message (env_at 1) (to_json (car "AMB-1" 0 10 60 true)) app in
  spawn_ambulance_click (env_at 2) app1 = app1 /\ i_own_ambulance app1 = false.
Proof.
  intros app.
  apply (proj2 ambulance_is_claimed_once (env_at 1) (env_at 2)
           (car "AMB-1" 0 10 60 true) app).
  - reflexivity.
  - discriminate.
  - reflexivity.
Defined.
